(** * Bichameral-AI router: a shallow embedding of [router/router_service.py]

    The service tokenizes a request, hands the tokens to a Prolog engine
    (pyswip) as the text of a [route/2] query and turns the engine's answer
    into a routing decision, or into a fixed fallback when the engine gives
    no answer or anything raises.

    Python strings are modelled as [string]; a character is a code point in
    the range 0..255 (Latin-1), on which [str.lower] and [str.isspace] are
    the tables below. *)

From Stdlib Require Import Strings.String Strings.Ascii.
From Stdlib Require Import Lists.List Bool.Bool Arith.Arith NArith.NArith ZArith.ZArith Lia.
From Stdlib Require Import Numbers.DecimalString.
From ExtLib Require Import Structures.Monad Structures.MonadExc.
Import ListNotations.
Import MonadNotation.
Local Open Scope string_scope.
Local Open Scope monad_scope.

(** ** Python's string builtins *)

Module PyStr.

Definition code (c : ascii) : N := N_of_ascii c.

(** [str.lower] on one code point: A..Z, and the Latin-1 capitals
    U+00C0..U+00DE apart from the multiplication sign U+00D7. *)
Definition lower_char (c : ascii) : ascii :=
  let n := code c in
  if ((65 <=? n) && (n <=? 90))%N
     || ((192 <=? n) && (n <=? 222) && negb (n =? 215))%N
  then ascii_of_N (n + 32)
  else c.

(** [str.isspace] on one code point: TAB, LF, VT, FF, CR, the separators
    U+001C..U+001F, the space, NEL U+0085 and the no-break space U+00A0. *)
Definition isspace (c : ascii) : bool :=
  let n := code c in
  (((9 <=? n) && (n <=? 13)) || ((28 <=? n) && (n <=? 32))
   || (n =? 133) || (n =? 160))%N.

(** [s.lower()] on code points 0..255, where it works character by
    character.  Beyond them Python's [lower] looks at the context of a
    capital sigma and can make a text longer; what is proved of [lower]
    below is stated so as not to lean on either. *)
Fixpoint lower (s : string) : string :=
  match s with
  | EmptyString => EmptyString
  | String c r => String (lower_char c) (lower r)
  end.

(** [s.replace(old, new)] for a non-empty [old]: occurrences are taken
    from the left and do not overlap; [skip] counts the characters of a
    matched occurrence still to be dropped. *)
Fixpoint replace_from (old new : string) (skip : nat) (s : string) : string :=
  match s with
  | EmptyString => EmptyString
  | String c r =>
      match skip with
      | S k => replace_from old new k r
      | O =>
          if prefix old s
          then new ++ replace_from old new (String.length old - 1) r
          else String c (replace_from old new 0 r)
      end
  end.

(** [s.replace(old, new)] for the empty [old] puts [new] before every
    character and at the end. *)
Fixpoint intersperse (new : string) (s : string) : string :=
  match s with
  | EmptyString => new
  | String c r => new ++ String c (intersperse new r)
  end.

Definition replace (old new : string) (s : string) : string :=
  match old with
  | EmptyString => intersperse new s
  | _ => replace_from old new 0 s
  end.

Definition emit (cur : string) (rest : list string) : list string :=
  match cur with
  | EmptyString => rest
  | _ => cur :: rest
  end.

(** [s.split()] with no separator: the maximal runs of characters that
    are not whitespace, in order; [cur] is the run being scanned. *)
Fixpoint split_from (cur : string) (s : string) : list string :=
  match s with
  | EmptyString => emit cur []
  | String c r =>
      if isspace c then emit cur (split_from EmptyString r)
      else split_from (cur ++ String c EmptyString) r
  end.

Definition split (s : string) : list string := split_from EmptyString s.

(** [sep.join(l)] *)
Definition join (sep : string) (l : list string) : string := String.concat sep l.

(** The characters of a string, and how often one occurs in it. *)
Definition chars (s : string) : list ascii := list_ascii_of_string s.

Definition count (c : ascii) (s : string) : nat :=
  count_occ ascii_dec (chars s) c.

(** The apostrophe, and how many of them a string has. *)
Definition quote : ascii := "'"%char.

Definition quotes (s : string) : nat := count quote s.

End PyStr.

(** ** The tokenizer *)

(** [clean_text]: [text.lower()] with ".", then "," and then "?" replaced
    by the empty string. *)
Definition clean_text (text : string) : string :=
  PyStr.replace "?" EmptyString (PyStr.replace "," EmptyString (PyStr.replace "." EmptyString (PyStr.lower text))).

(** [RouterService._tokenize] *)
Definition _tokenize (text : string) : list string :=
  PyStr.split (clean_text text).

(** *** The tokenizer's contract, in the words of the specification *)

Module TokenizerSpec.

(** The characters that are removed: the full stop, the comma and the
    question mark, and no other. *)
Definition stripped (c : ascii) : bool :=
  Ascii.eqb c "." || Ascii.eqb c "," || Ascii.eqb c "?".

(** The text lowercased, with the stripped characters removed. *)
Definition normalized (text : string) : string :=
  string_of_list_ascii
    (filter (fun c => negb (stripped c)) (map PyStr.lower_char (PyStr.chars text))).

Definition no_space (s : string) : Prop :=
  Forall (fun c => PyStr.isspace c = false) (PyStr.chars s).

(** A token: not empty and without whitespace. *)
Definition word (t : string) : Prop :=
  t <> EmptyString /\ no_space t.

(** [Splits s l]: [l] is [s] split on whitespace, that is, [s] is the
    words of [l], in order, each set off from the next by whitespace,
    with any whitespace around them. *)
Inductive Splits : string -> list string -> Prop :=
| Splits_end : Splits EmptyString []
| Splits_space c s l :
    PyStr.isspace c = true -> Splits s l -> Splits (String c s) l
| Splits_last t : word t -> Splits t [t]
| Splits_word t c s l :
    word t -> PyStr.isspace c = true -> Splits s l ->
    Splits (t ++ String c s) (t :: l).

End TokenizerSpec.

(** ** Exceptions, and computations that may raise *)

(** An instance of [Exception]; [exn_str e] is [str(e)]. *)
Record exn := Exception { exn_class : string; exn_str : string }.

Inductive res (A : Type) : Type :=
| Ok (a : A)
| Raise (e : exn).
Arguments Ok {A} a.
Arguments Raise {A} e.

#[export] Instance Monad_res : Monad res :=
  {| ret := fun _ a => Ok a;
     bind := fun _ _ m k => match m with Ok a => k a | Raise e => Raise e end |}.

(** A computation over the world [W]: it leaves a world behind whether it
    returns or raises. *)
Definition Py (W A : Type) : Type := W -> W * res A.

#[export] Instance Monad_Py {W} : Monad (Py W) :=
  {| ret := fun _ a w => (w, Ok a);
     bind := fun _ _ m k w =>
       match m w with
       | (w', Ok a) => k a w'
       | (w', Raise e) => (w', Raise e)
       end |}.

(** [catch body handler] is [try: body  except Exception as e: handler e]. *)
#[export] Instance Exc_Py {W} : MonadExc exn (Py W) :=
  {| raise := fun _ e w => (w, Raise e);
     catch := fun _ m h w =>
       match m w with
       | (w', Ok a) => (w', Ok a)
       | (w', Raise e) => h e w'
       end |}.

Definition lift {W A} (r : res A) : Py W A := fun w => (w, r).

(** ** The objects the engine hands back *)

(** The operations [route_request] applies to what pyswip returns:
    [o[key]], [str(o)], [int(o)] and iteration.  An iteration yields its
    items and then either stops or raises. *)
Class PyObject (obj : Type) : Type := {
  py_getitem : obj -> string -> res obj;
  py_str : obj -> res string;
  py_int : obj -> res Z;
  py_iter : obj -> list obj * option exn
}.

(** [list(prolog.query(q))]: the engine either raises or gives the list of
    its solutions, and may change its own state on the way. *)
Class Prolog (engine obj : Type) : Type := {
  prolog_query : engine -> string -> engine * res (list obj)
}.

(** The process as far as the service touches it: the engine behind
    [self.prolog] and the lines printed so far. *)
Record world (engine : Type) : Type := World {
  prolog : engine;
  stdout : list string
}.
Arguments World {engine} prolog stdout.
Arguments prolog {engine} w.
Arguments stdout {engine} w.

(** ** The decision record *)

(** The values of the returned dict: strings, the integer score and the
    list of tool names. *)
Inductive value : Type :=
| VStr (s : string)
| VInt (z : Z)
| VList (l : list string).

(** The returned dict, in insertion order. *)
Definition response : Type := list (string * value).

Fixpoint dict_get {V : Type} (k : string) (d : list (string * V)) : option V :=
  match d with
  | [] => None
  | (k', v) :: rest => if String.eqb k k' then Some v else dict_get k rest
  end.

Definition has_key (k : string) (d : response) : Prop := dict_get k d <> None.

Definition dict_remove (k : string) (d : response) : response :=
  filter (fun kv => negb (String.eqb k (fst kv))) d.

(** ** RouterService *)

(** [RouterService._fallback_response] *)
Definition _fallback_response (reason : string) : response :=
  [ ("domain", VStr "unknown");
    ("stakes", VStr "medium");
    ("model", VStr "gpt_oss_20b");
    ("validation_policy", VStr "end_stage");
    ("tools_required", VList ["embeddings"]);
    ("error", VStr reason) ].

Definition is_fallback (r : response) : Prop :=
  exists reason, r = _fallback_response reason.

(** A record with the six keys of the dict display of a classification. *)
Definition success_record (r : response) : Prop :=
  exists domain stakes model validation tools score,
    r = [ ("domain", VStr domain); ("stakes", VStr stakes);
          ("model", VStr model); ("validation_policy", VStr validation);
          ("tools_required", VList tools); ("complexity_score", VInt score) ].

(** [f"'{t}'"] *)
Definition quoted (t : string) : string := "'" ++ t ++ "'".

(** ["[" + ",".join([f"'{t}'" for t in tokens]) + "]"] *)
Definition prolog_list_str (tokens : list string) : string :=
  "[" ++ PyStr.join "," (map quoted tokens) ++ "]".

(** [f"route({prolog_list_str}, Decision)"] for the tokens of [user_input] *)
Definition query (user_input : string) : string :=
  "route(" ++ prolog_list_str (_tokenize user_input) ++ ", Decision)".

Section RouterService.
Context {engine obj : Type} {O : PyObject obj} {P : Prolog engine obj}.

Definition run_query (q : string) : Py (world engine) (list obj) :=
  fun w =>
    let (p, r) := prolog_query (prolog w) q in
    (World p (stdout w), r).

Definition print (line : string) : Py (world engine) unit :=
  fun w => (World (prolog w) (stdout w ++ [line]), Ok tt).

(** [[str(t) for t in items]] over an iteration that ends with [fin] *)
Fixpoint str_each (items : list obj) (fin : option exn) : res (list string) :=
  match items with
  | [] => match fin with None => Ok [] | Some e => Raise e end
  | t :: rest =>
      s <- py_str t ;;
      ss <- str_each rest fin ;;
      ret (s :: ss)
  end.

(** The dict display of lines 50-57, its values computed in order. *)
Definition decision_record (decision_data : obj) : res response :=
  domain <- (py_getitem decision_data "domain" >>= py_str) ;;
  stakes <- (py_getitem decision_data "stakes" >>= py_str) ;;
  model <- (py_getitem decision_data "model" >>= py_str) ;;
  validation <- (py_getitem decision_data "validation" >>= py_str) ;;
  tools <- (py_getitem decision_data "tools" >>= fun ts =>
            let (items, fin) := py_iter ts in str_each items fin) ;;
  score <- (py_getitem decision_data "score" >>= py_int) ;;
  ret [ ("domain", VStr domain);
        ("stakes", VStr stakes);
        ("model", VStr model);
        ("validation_policy", VStr validation);
        ("tools_required", VList tools);
        ("complexity_score", VInt score) ].

(** The body of the [try] of [route_request], lines 40-57. *)
Definition try_body (q : string) : Py (world engine) response :=
  results <- run_query q ;;
  match results with
  | [] => ret (_fallback_response "No routing decision found")
  | first :: _ =>
      decision_data <- lift (py_getitem first "Decision") ;;
      lift (decision_record decision_data)
  end.

(** [RouterService.route_request] *)
Definition route_request (user_input : string) : Py (world engine) response :=
  catch (try_body (query user_input))
        (fun e =>
           print ("Routing Error: " ++ exn_str e) ;;
           ret (_fallback_response (exn_str e))).

(** The world after the handler printed the error. *)
Definition after_error (w : world engine) (e : exn) : world engine :=
  World (prolog w) (stdout w ++ ["Routing Error: " ++ exn_str e]).

(** Classification fails or yields no usable result: the [try] body
    raises, or the query has no solution; [reason] is the text that goes
    with it. *)
Definition no_usable_result (user_input : string) (w : world engine)
           (reason : string) : Prop :=
  (exists w' e, try_body (query user_input) w = (w', Raise e)
                /\ reason = exn_str e)
  \/ (exists p, prolog_query (prolog w) (query user_input) = (p, Ok [])
                /\ reason = "No routing decision found").

(** The rule tables are fixed: no query changes the engine. *)
Definition rules_fixed : Prop :=
  forall (p : engine) (q : string), fst (prolog_query p q) = p.

(** The world after serving a sequence of requests. *)
Fixpoint serve (inputs : list string) (w : world engine) : world engine :=
  match inputs with
  | [] => w
  | user_input :: rest => serve rest (fst (route_request user_input w))
  end.

End RouterService.

(** ** How pyswip marshals Prolog data *)

(** pyswip turns atoms into [str], integers into [int], lists into [list]
    and dicts into [dict]; the laws say what the operations of [PyObject]
    give on them, and nothing about any other object. *)
Class Pyswip (obj : Type) `{PyObject obj} : Type := {
  of_atom : string -> obj;
  of_int : Z -> obj;
  of_list : list obj -> obj;
  of_dict : list (string * obj) -> obj;
  str_of_atom : forall a, py_str (of_atom a) = Ok a;
  int_of_int : forall z, py_int (of_int z) = Ok z;
  iter_of_list : forall l, py_iter (of_list l) = (l, None);
  getitem_of_dict : forall d k v,
    dict_get k d = Some v -> py_getitem (of_dict d) k = Ok v
}.

(** ** The routing rules *)

Module Rules.

(** Modelled from the spec: [routing_rules.pl], the rule file the service
    consults, is not among the sources.  What follows is the decision
    engine of sections 3 and 4.2-4.7 of the specification; the keyword
    lists, the weights and the upper bound of the medium bucket, which
    the specification leaves to the rule author, are the fields of
    [rule_tables]. *)
Inductive domain : Type :=
| coding_architecture | coding_implementation | creative | documents | unknown.

(** Modelled from the spec: section 3, the stakes levels of the absent
    rule file. *)
Inductive stakes : Type := low | medium | high.

(** Modelled from the spec: section 3, the model identifiers the absent
    rule file answers with, as far as the specification names them. *)
Inductive model_id : Type :=
| qwen_coder_32b | nemotron_30b | mythomax_13b | gpt_oss_20b.

(** Modelled from the spec: section 3, the validation policies of the
    absent rule file. *)
Inductive validation_policy : Type := none | end_stage | block_by_block.

(** Modelled from the spec: the atoms the absent rule file writes for the
    domains, stakes, models and policies are the names the specification
    gives them. *)
Definition domain_name (d : domain) : string :=
  match d with
  | coding_architecture => "coding_architecture"
  | coding_implementation => "coding_implementation"
  | creative => "creative"
  | documents => "documents"
  | unknown => "unknown"
  end.

Definition stakes_name (s : stakes) : string :=
  match s with low => "low" | medium => "medium" | high => "high" end.

Definition model_name (m : model_id) : string :=
  match m with
  | qwen_coder_32b => "qwen_coder_32b"
  | nemotron_30b => "nemotron_30b"
  | mythomax_13b => "mythomax_13b"
  | gpt_oss_20b => "gpt_oss_20b"
  end.

Definition validation_name (v : validation_policy) : string :=
  match v with
  | none => "none" | end_stage => "end_stage" | block_by_block => "block_by_block"
  end.

(** Modelled from the spec: the tables the absent rule file holds, which
    the specification describes without fixing their entries. *)
Record rule_tables : Type := {
  domain_rules : list (domain * list string);  (* ordered, first match wins *)
  weights : list (string * nat);               (* keyword -> weight *)
  medium_max : nat;                            (* scores 1..medium_max are medium *)
  tool_rules : list (string * list string)     (* tool -> its trigger words *)
}.

(** Modelled from the spec: a rule's trigger set "intersects the token
    sequence". *)
Definition mentions (keywords tokens : list string) : bool :=
  existsb (fun k => existsb (String.eqb k) tokens) keywords.

(** Modelled from the spec: 4.2, ordered rules, first match wins, else
    [unknown]. *)
Fixpoint classify_domain (rules : list (domain * list string))
         (tokens : list string) : domain :=
  match rules with
  | [] => unknown
  | (d, keywords) :: rest =>
      if mentions keywords tokens then d else classify_domain rest tokens
  end.

(** Modelled from the spec: 4.3, a token outside the table weighs
    nothing. *)
Definition weight_of (table : list (string * nat)) (token : string) : nat :=
  match dict_get token table with
  | Some w => w
  | None => 0
  end.

(** Modelled from the spec: 4.3, the weights of the tokens summed, one
    term per occurrence. *)
Definition complexity_score (table : list (string * nat))
           (tokens : list string) : nat :=
  list_sum (map (weight_of table) tokens).

(** Modelled from the spec: 4.3, the buckets: 0 is low, 1..N is medium,
    above N is high. *)
Definition bucket (medium_max score : nat) : stakes :=
  if Nat.eqb score 0 then low
  else if Nat.leb score medium_max then medium
  else high.

(** Modelled from the spec: 4.3, the architecture override comes before
    the buckets. *)
Definition stakes_for (medium_max : nat) (d : domain) (score : nat) : stakes :=
  match d with
  | coding_architecture => high
  | _ => bucket medium_max score
  end.

(** Modelled from the spec: 4.4, every tool one of whose triggers occurs. *)
Definition detect_tools (rules : list (string * list string))
           (tokens : list string) : list string :=
  map fst (filter (fun r => mentions (snd r) tokens) rules).

(** Modelled from the spec: 4.5, the confirmed entries and the default. *)
Definition select_model (d : domain) (s : stakes) : model_id :=
  match d, s with
  | coding_architecture, high => qwen_coder_32b
  | coding_implementation, medium => nemotron_30b
  | creative, low => mythomax_13b
  | _, _ => gpt_oss_20b
  end.

(** Modelled from the spec: 4.6, the confirmed entries and the default. *)
Definition select_validation (d : domain) (s : stakes) : validation_policy :=
  match d, s with
  | coding_architecture, high => block_by_block
  | creative, low => none
  | _, _ => end_stage
  end.

(** Modelled from the spec: section 3, what the absent rule file binds
    [Decision] to. *)
Record decision : Type := {
  d_domain : domain;
  d_stakes : stakes;
  d_model : model_id;
  d_validation : validation_policy;
  d_tools : list string;
  d_score : nat
}.

(** Modelled from the spec: 4.7, the decision for a token sequence. *)
Definition route (t : rule_tables) (tokens : list string) : decision :=
  let d := classify_domain (domain_rules t) tokens in
  let score := complexity_score (weights t) tokens in
  let s := stakes_for (medium_max t) d score in
  {| d_domain := d;
     d_stakes := s;
     d_model := select_model d s;
     d_validation := select_validation d s;
     d_tools := detect_tools (tool_rules t) tokens;
     d_score := score |}.

(** The tokens that are a domain trigger or carry a weight. *)
Definition recognized (t : rule_tables) (token : string) : bool :=
  existsb (fun r => existsb (String.eqb token) (snd r)) (domain_rules t)
  || existsb (fun kw => String.eqb token (fst kw)) (weights t).

(** Modelled from the spec: the engine with the absent rule file loaded:
    its tables, and how it reads the text of a query
    [route([...], Decision)] into the atoms of the list, raising on a text
    it cannot read. *)
Record engine : Type := {
  tables : rule_tables;
  reader : string -> res (list string)
}.

(** The atoms the engine reads from the query of a request; none when
    the query does not read. *)
Definition request_atoms (e : engine) (user_input : string) : list string :=
  match reader e (query user_input) with
  | Ok atoms => atoms
  | Raise _ => []
  end.

(** The record [route_request] makes of a decision. *)
Definition record_of (d : decision) : response :=
  [ ("domain", VStr (domain_name (d_domain d)));
    ("stakes", VStr (stakes_name (d_stakes d)));
    ("model", VStr (model_name (d_model d)));
    ("validation_policy", VStr (validation_name (d_validation d)));
    ("tools_required", VList (d_tools d));
    ("complexity_score", VInt (Z.of_nat (d_score d))) ].

Section Answers.
Context {obj : Type} `{Pyswip obj}.

(** The solution pyswip yields for a decision: [Decision] bound to a
    dict under the keys [route_request] reads. *)
Definition solution (d : decision) : obj :=
  of_dict
    [ ("Decision",
       of_dict
         [ ("domain", of_atom (domain_name (d_domain d)));
           ("stakes", of_atom (stakes_name (d_stakes d)));
           ("model", of_atom (model_name (d_model d)));
           ("validation", of_atom (validation_name (d_validation d)));
           ("tools", of_list (map of_atom (d_tools d)));
           ("score", of_int (Z.of_nat (d_score d))) ]) ].

(** Modelled from the spec: the rules answer every query they can read
    with exactly one decision, and are not changed by it. *)
#[export] Instance engine_prolog : Prolog engine obj :=
  {| prolog_query := fun e q =>
       (e, atoms <- reader e q ;; ret [solution (route (tables e) atoms)]) |}.

End Answers.

(** Modelled from the spec: the entries the specification lists for the
    tables of the absent rule file; the medium bucket is taken to end at
    2, the one score the specification places in it. *)
Definition listed_tables : rule_tables :=
  {| domain_rules :=
       [ (coding_architecture,
          ["architecture"; "refactor"; "dependency injection"; "microservices"]);
         (coding_implementation,
          ["optimize"; "function"; "loop"; "performance"; "implementation"]);
         (creative, ["story"; "poem"; "creative"]);
         (documents, ["scan"; "pdf"; "image"; "document"]) ];
     weights := [ ("optimize", 2); ("function", 0) ];
     medium_max := 2;
     tool_rules :=
       [ ("ocr", ["scan"; "pdf"]);
         ("vision", ["image"; "photo"; "picture"]);
         ("embeddings", ["find"; "similar"; "search"]) ] |}.

End Rules.

#[export] Existing Instance Rules.engine_prolog.

(** ** Reading the query text *)

Module PrologSyntax.

(** The queries [route_request] means to write are
    [route(['a1',...,'an'], Decision)], a list of quoted atoms.  Inside a
    quoted atom Prolog reads two single quotes as one quote character and
    a single one as the end of the atom.  [read_query] reads exactly the
    texts of that shape whose atoms are made of printable ASCII without
    a backslash; a text it reads is a well-formed query, and the atoms
    are what the engine sees. *)
Definition plain (c : ascii) : bool :=
  let n := PyStr.code c in
  ((33 <=? n) && (n <=? 126) && negb (n =? 39) && negb (n =? 92))%N.

(** A token of printable ASCII without an apostrophe or a backslash. *)
Definition plain_token (t : string) : Prop :=
  forallb plain (PyStr.chars t) = true.

Inductive state : Type :=
| AtomStart    (* an opening quote is due *)
| InAtom       (* inside a quoted atom *)
| QuoteSeen.   (* a quote inside an atom: doubled, or the closing one *)

Fixpoint read_atoms (st : state) (cur : string) (s : string)
  : option (list string * string) :=
  match s with
  | EmptyString => None
  | String c r =>
      match st with
      | AtomStart =>
          if Ascii.eqb c "'" then read_atoms InAtom EmptyString r else None
      | InAtom =>
          if Ascii.eqb c "'" then read_atoms QuoteSeen cur r
          else if plain c then read_atoms InAtom (cur ++ String c EmptyString) r
          else None
      | QuoteSeen =>
          if Ascii.eqb c "'" then read_atoms InAtom (cur ++ "'") r
          else if Ascii.eqb c "," then
            match read_atoms AtomStart EmptyString r with
            | Some (atoms, rest) => Some (cur :: atoms, rest)
            | None => None
            end
          else if Ascii.eqb c "]" then Some ([cur], r)
          else None
      end
  end.

Definition read_list (s : string) : option (list string * string) :=
  match s with
  | String "[" (String "]" rest) => Some ([], rest)
  | String "[" r => read_atoms AtomStart EmptyString r
  | _ => None
  end.

Fixpoint strip_prefix (p s : string) : option string :=
  match p, s with
  | EmptyString, _ => Some s
  | String a p', String b s' => if Ascii.eqb a b then strip_prefix p' s' else None
  | String _ _, EmptyString => None
  end.

Definition read_query (q : string) : option (list string) :=
  match strip_prefix "route(" q with
  | Some s =>
      match read_list s with
      | Some (atoms, rest) =>
          if String.eqb rest ", Decision)" then Some atoms else None
      | None => None
      end
  | None => None
  end.

(** The characters an atom takes in the text of a list: itself, one more
    for each of its quotes, its two delimiters and the comma or bracket
    after it. *)
Definition width (a : string) : nat :=
  String.length a + PyStr.quotes a + 3.

(** The characters of the atom being read that are already behind. *)
Definition pending (st : state) (cur : string) : nat :=
  match st with
  | AtomStart => 0
  | InAtom => String.length cur + PyStr.quotes cur + 1
  | QuoteSeen => String.length cur + PyStr.quotes cur + 2
  end.

(** The error pyswip raises for a query the engine cannot read; the
    engine's own message, which follows the query in the text, is left
    out. *)
Definition syntax_error (q : string) : exn :=
  Exception "PrologError" ("Caused by: '" ++ q ++ "'.").

Definition reader (q : string) : res (list string) :=
  match read_query q with
  | Some atoms => Ok atoms
  | None => Raise (syntax_error q)
  end.

End PrologSyntax.

(** ** A small object model *)

(** Atoms, integers, lists and dicts as pyswip returns them, that is, as
    [str], [int], [list] and [dict].  Two conversions of Python are left
    out, which the service never reaches on an answer of the rules: the
    text of a list or of a dict ([str] of it), and the integer a string
    spells ([int] of it); they raise [NotImplementedError] here. *)
#[warnings="-register-all"] Inductive term : Type :=
| Atom (a : string)
| Int (z : Z)
| TList (l : list term)
| Dict (d : list (string * term)).

Definition left_out {A} : res A :=
  Raise (Exception "NotImplementedError" EmptyString).

Definition TypeError (text : string) : exn := Exception "TypeError" text.

(** [str(z)] *)
Definition decimal (z : Z) : string := NilZero.string_of_int (Z.to_int z).

#[export] Instance term_object : PyObject term :=
  {| py_getitem := fun o k =>
       match o with
       | Dict d =>
           match dict_get k d with
           | Some v => Ok v
           | None => Raise (Exception "KeyError" (quoted k))
           end
       | Atom _ => Raise (TypeError "string indices must be integers, not 'str'")
       | Int _ => Raise (TypeError "'int' object is not subscriptable")
       | TList _ => Raise (TypeError "list indices must be integers or slices, not str")
       end;
     py_str := fun o =>
       match o with
       | Atom a => Ok a
       | Int z => Ok (decimal z)
       | TList _ | Dict _ => left_out
       end;
     py_int := fun o =>
       match o with
       | Int z => Ok z
       | Atom _ => left_out
       | TList _ =>
           Raise (TypeError "int() argument must be a string, a bytes-like object or a real number, not 'list'")
       | Dict _ =>
           Raise (TypeError "int() argument must be a string, a bytes-like object or a real number, not 'dict'")
       end;
     py_iter := fun o =>
       match o with
       | TList l => (l, None)
       | Dict d => (map (fun kv => Atom (fst kv)) d, None)
       | Atom a => (map (fun c => Atom (String c EmptyString)) (PyStr.chars a), None)
       | Int _ => ([], Some (TypeError "'int' object is not iterable"))
       end |}.

#[export] Instance term_pyswip : Pyswip term.
Proof.
  refine {| of_atom := Atom; of_int := Int; of_list := TList; of_dict := Dict |}.
  - reflexivity.
  - reflexivity.
  - reflexivity.
  - intros d k v Hk. simpl. rewrite Hk. reflexivity.
Defined.

(** An engine whose rules have no clause for any request: every query
    comes back without a solution. *)
Definition no_clause : Prolog unit term :=
  {| prolog_query := fun p _ => (p, Ok []) |}.

(** An engine that answers every query with a decision that lacks its
    score. *)
Definition no_score : Prolog unit term :=
  {| prolog_query := fun p _ =>
       (p, Ok [ Dict [ ("Decision",
                        Dict [ ("domain", Atom "creative");
                               ("stakes", Atom "low");
                               ("model", Atom "mythomax_13b");
                               ("validation", Atom "none");
                               ("tools", TList [Atom "ocr"]) ]) ] ]) |}.

(** The engine over the tables [t] that reads its queries by Prolog's
    quoting rule. *)
Definition quoting_engine (t : Rules.rule_tables) : Rules.engine :=
  {| Rules.tables := t; Rules.reader := PrologSyntax.reader |}.

(** The service over the listed rules, before anything was printed. *)
Definition listed_engine : Rules.engine := quoting_engine Rules.listed_tables.

Definition listed_world : world Rules.engine := World listed_engine [].

(** [route_request] of the service over the listed rules. *)
Definition listed_route (user_input : string) : res response :=
  snd (route_request (obj := term) user_input listed_world).

(** ** The constructor *)

(** What [RouterService.__init__] takes from its surroundings:
    [os.path.abspath], which raises when the working directory is gone,
    the engine [Prolog()] gives, and [consult], which loads a file into
    the engine or raises. *)
Class Loader (engine : Type) : Type := {
  os_path_abspath : string -> res string;
  Prolog_new : engine;
  prolog_consult : engine -> string -> engine * res unit
}.

(** [abs_path.replace("\\", "/")] *)
Definition clean_path (abs_path : string) : string :=
  PyStr.replace "\" "/" abs_path.

(** The default of [rules_file]. *)
Definition default_rules_file : string := "routing_rules.pl".

Section Constructor.
Context {engine : Type} {L : Loader engine}.

(** [print] while there is no service yet: the world is the printed lines. *)
Definition print_line (line : string) : Py (list string) unit :=
  fun out => ((out ++ [line])%list, Ok tt).

Definition consult (path : string) : Py (list string) engine :=
  fun out =>
    match prolog_consult Prolog_new path with
    | (p, Ok _) => (out, Ok p)
    | (_, Raise e) => (out, Raise e)
    end.

(** [RouterService.__init__]: the engine the new service holds, or the
    exception the constructor raises. *)
Definition __init__ (rules_file : string) : Py (list string) engine :=
  abs_path <- lift (os_path_abspath rules_file) ;;
  catch (consult (clean_path abs_path))
        (fun e =>
           print_line ("Error loading Prolog rules: " ++ exn_str e) ;;
           raise e).

End Constructor.

(** ** The test suite, [test_router.py] *)

(** How a test method ends: all its assertions held, the [assertion]-th
    one failed, or something else raised. *)
Inductive verdict : Type :=
| Passed
| Failed (assertion : nat)
| Errored (e : exn).

(** [result[key]] on the returned dict *)
Definition result_getitem (result : response) (key : string) : res value :=
  match dict_get key result with
  | Some v => Ok v
  | None => Raise (Exception "KeyError" (quoted key))
  end.

(** [first == second] on the values of a record *)
Definition value_eqb (first second : value) : bool :=
  match first, second with
  | VStr a, VStr b => String.eqb a b
  | VInt a, VInt b => Z.eqb a b
  | VList a, VList b => if list_eq_dec string_dec a b then true else false
  | _, _ => false
  end.

(** [needle in hay] on strings: [needle] occurs in [hay]. *)
Fixpoint occurs (needle hay : string) : bool :=
  prefix needle hay
  || match hay with
     | EmptyString => false
     | String _ rest => occurs needle rest
     end.

(** [member in container] *)
Definition py_in (member : string) (container : value) : res bool :=
  match container with
  | VList l => Ok (existsb (String.eqb member) l)
  | VStr s => Ok (occurs member s)
  | VInt _ => Raise (TypeError "argument of type 'int' is not iterable")
  end.

(** [self.assertEqual(first, second)] as the [n]-th assertion of a test,
    followed by [next]. *)
Definition assertEqual (n : nat) (first : res value) (second : value)
           (next : verdict) : verdict :=
  match first with
  | Raise e => Errored e
  | Ok v => if value_eqb v second then next else Failed n
  end.

(** [self.assertIn(member, container)] as the [n]-th assertion of a test,
    followed by [next]. *)
Definition assertIn (n : nat) (member : string) (container : res value)
           (next : verdict) : verdict :=
  match container with
  | Raise e => Errored e
  | Ok c =>
      match py_in member c with
      | Raise e => Errored e
      | Ok true => next
      | Ok false => Failed n
      end
  end.

Section TestRouterLogic.
Context {engine obj : Type} {O : PyObject obj} {P : Prolog engine obj}.

(** [result = self.router.route_request(prompt)], then the assertions. *)
Definition with_result (prompt : string) (assertions : response -> verdict)
           (router : world engine) : world engine * verdict :=
  match route_request prompt router with
  | (router', Ok result) => (router', assertions result)
  | (router', Raise e) => (router', Errored e)
  end.

Definition test_high_stakes_architecture : world engine -> world engine * verdict :=
  with_result "Refactor the system architecture to use dependency injection."
    (fun result =>
       assertEqual 1 (result_getitem result "domain") (VStr "coding_architecture")
      (assertEqual 2 (result_getitem result "stakes") (VStr "high")
      (assertEqual 3 (result_getitem result "model") (VStr "qwen_coder_32b")
      (assertEqual 4 (result_getitem result "validation_policy") (VStr "block_by_block")
       Passed)))).

Definition test_low_stakes_creative : world engine -> world engine * verdict :=
  with_result "Write a creative poem about the sun."
    (fun result =>
       assertEqual 1 (result_getitem result "domain") (VStr "creative")
      (assertEqual 2 (result_getitem result "stakes") (VStr "low")
      (assertEqual 3 (result_getitem result "model") (VStr "mythomax_13b")
      (assertEqual 4 (result_getitem result "validation_policy") (VStr "none")
       Passed)))).

Definition test_implementation_optimization : world engine -> world engine * verdict :=
  with_result "Optimize this python function loop for better performance."
    (fun result =>
       assertEqual 1 (result_getitem result "domain") (VStr "coding_implementation")
      (assertEqual 2 (result_getitem result "stakes") (VStr "medium")
      (assertEqual 3 (result_getitem result "model") (VStr "nemotron_30b")
       Passed))).

Definition test_tool_detection : world engine -> world engine * verdict :=
  with_result "Scan this pdf image and find similar files."
    (fun result =>
       assertIn 1 "ocr" (result_getitem result "tools_required")
      (assertIn 2 "vision" (result_getitem result "tools_required")
      (assertIn 3 "embeddings" (result_getitem result "tools_required")
       Passed))).

Definition test_unknown_fallback : world engine -> world engine * verdict :=
  with_result "Banana burger sky blue."
    (fun result =>
       assertEqual 1 (result_getitem result "domain") (VStr "unknown")
      (assertEqual 2 (result_getitem result "model") (VStr "gpt_oss_20b")
       Passed)).

(** The engine has no answer for [prompt]: its query raises or comes
    back without a solution. *)
Definition no_answer (prompt : string) (router : world engine) : Prop :=
  exists p, prolog_query (prolog router) (query prompt) = (p, Ok [])
            \/ exists e, prolog_query (prolog router) (query prompt) = (p, Raise e).

End TestRouterLogic.

(** An engine that raises on every query. *)
Definition broken : Prolog unit term :=
  {| prolog_query := fun p q => (p, Raise (PrologSyntax.syntax_error q)) |}.

(** A loader for which every path is absolute already and [consult]
    finds no file. *)
Definition no_file : Loader unit :=
  {| os_path_abspath := fun path => Ok path;
     Prolog_new := tt;
     prolog_consult := fun p path =>
       (p, Raise (Exception "PrologError" ("Caused by: 'consult('" ++ path ++ "')'."))) |}.

(** An engine with two solutions for every query: a decision, and then
    one that binds nothing. *)
Definition two_solutions_first : term :=
  Dict [ ("Decision",
          Dict [ ("domain", Atom "creative");
                 ("stakes", Atom "low");
                 ("model", Atom "mythomax_13b");
                 ("validation", Atom "none");
                 ("tools", TList [Atom "ocr"]);
                 ("score", Int 0) ]) ].

Definition two_solutions : Prolog unit term :=
  {| prolog_query := fun p _ => (p, Ok [two_solutions_first; Dict []]) |}.

(** The comma, and the strings a comma-joined text is made of: not empty
    and without a comma. *)
Definition comma : ascii := ","%char.

Definition piece (x : string) : Prop :=
  x <> EmptyString /\ ~ In comma (PyStr.chars x).

(** The two characters of [clean_path]. *)
Definition backslash : ascii := "\"%char.

Definition slash : ascii := "/"%char.

(** A record in which the tests can read every key they ask for: the
    four strings, and the tools as a list. *)
Definition test_readable (r : response) : Prop :=
  exists domain stakes model validation tools,
    dict_get "domain" r = Some (VStr domain)
    /\ dict_get "stakes" r = Some (VStr stakes)
    /\ dict_get "model" r = Some (VStr model)
    /\ dict_get "validation_policy" r = Some (VStr validation)
    /\ dict_get "tools_required" r = Some (VList tools).

(** A test that did not end in an error. *)
Definition judged (v : verdict) : Prop :=
  v = Passed \/ exists n, v = Failed n.

(** * Properties *)

(** ** Strings *)

Module PyStrFacts.
Import PyStr.

Lemma lower_char_idem (c : ascii) : lower_char (lower_char c) = lower_char c.
Proof. destruct c as [[] [] [] [] [] [] [] []]; reflexivity. Qed.

Lemma lower_char_quote (c : ascii) :
  lower_char c = "'"%char <-> c = "'"%char.
Proof.
  split.
  - destruct c as [[] [] [] [] [] [] [] []]; vm_compute; congruence.
  - intros ->. reflexivity.
Qed.

Lemma chars_String c s : chars (String c s) = c :: chars s.
Proof. reflexivity. Qed.

Lemma chars_app s1 s2 : chars (s1 ++ s2) = (chars s1 ++ chars s2)%list.
Proof.
  induction s1 as [|c s1 IH]; [reflexivity|].
  cbn [String.append]. rewrite !chars_String, IH. reflexivity.
Qed.

Lemma chars_inj s1 s2 : chars s1 = chars s2 -> s1 = s2.
Proof.
  intros E. rewrite <- (string_of_list_ascii_of_string s1),
    <- (string_of_list_ascii_of_string s2).
  unfold chars in E. now rewrite E.
Qed.

Lemma chars_lower s : chars (lower s) = map lower_char (chars s).
Proof.
  induction s as [|c s IH]; [reflexivity|].
  cbn [lower]. rewrite !chars_String. now rewrite IH.
Qed.

Lemma append_empty_r s : s ++ EmptyString = s.
Proof. induction s; simpl; congruence. Qed.

Lemma append_assoc s1 s2 s3 : (s1 ++ s2) ++ s3 = s1 ++ (s2 ++ s3).
Proof. induction s1; simpl; congruence. Qed.

(** Replacing a one-character string by nothing removes the character. *)
Lemma chars_replace_char (c : ascii) (s : string) :
  chars (replace (String c EmptyString) EmptyString s)
  = filter (fun x => negb (Ascii.eqb x c)) (chars s).
Proof.
  unfold replace.
  induction s as [|x s IH]; [reflexivity|].
  cbn [replace_from prefix String.length Nat.sub].
  rewrite chars_String. cbn [filter].
  destruct (ascii_dec c x) as [->|Hne].
  - rewrite Ascii.eqb_refl. cbn [negb].
    replace (prefix EmptyString s) with true by (destruct s; reflexivity).
    exact IH.
  - assert (Ascii.eqb x c = false) as ->
        by (apply Ascii.eqb_neq; congruence).
    cbn [negb]. rewrite chars_String. now rewrite IH.
Qed.

End PyStrFacts.

(** ** The tokenizer *)

Module TokenizerFacts.
Import PyStr PyStrFacts TokenizerSpec.

Lemma filter_filter {A} (f g : A -> bool) (l : list A) :
  filter f (filter g l) = filter (fun x => g x && f x) l.
Proof.
  induction l as [|x l IH]; [reflexivity|].
  cbn [filter]. destruct (g x); cbn [filter andb]; [destruct (f x)|]; now rewrite IH.
Qed.

(** The three replacements of [clean_text] amount to one pass that drops
    the stripped characters of the lowercased text. *)
Lemma clean_text_normalized (text : string) : clean_text text = normalized text.
Proof.
  apply chars_inj. unfold clean_text, normalized.
  rewrite !chars_replace_char, chars_lower.
  unfold chars at 3. rewrite list_ascii_of_string_of_list_ascii.
  rewrite !filter_filter. apply filter_ext. intros c. unfold stripped.
  destruct (Ascii.eqb c "."), (Ascii.eqb c ","), (Ascii.eqb c "?"); reflexivity.
Qed.

Lemma no_space_snoc cur c :
  no_space cur -> isspace c = false -> no_space (cur ++ String c EmptyString).
Proof.
  unfold no_space. intros Hc Hs. rewrite chars_app.
  apply Forall_app. split; [assumption|]. now constructor.
Qed.

Lemma emit_nonempty cur l : cur <> EmptyString -> emit cur l = cur :: l.
Proof. destruct cur; [congruence | reflexivity]. Qed.

Lemma split_from_Splits (s : string) : forall cur,
  no_space cur -> Splits (cur ++ s) (split_from cur s).
Proof.
  induction s as [|c s IH]; intros cur Hcur; cbn [split_from].
  - rewrite append_empty_r. destruct cur as [|a cur]; cbn [emit].
    + constructor.
    + apply Splits_last. split; [discriminate | exact Hcur].
  - destruct (isspace c) eqn:Hc.
    + destruct cur as [|a cur]; cbn [emit].
      * cbn [String.append]. apply Splits_space; [exact Hc|].
        apply (IH EmptyString). constructor.
      * apply Splits_word; [split; [discriminate | exact Hcur] | exact Hc |].
        apply (IH EmptyString). constructor.
    + replace (cur ++ String c s) with ((cur ++ String c EmptyString) ++ s)
        by (rewrite append_assoc; reflexivity).
      apply IH. now apply no_space_snoc.
Qed.

Lemma split_Splits (s : string) : Splits s (split s).
Proof. apply (split_from_Splits s EmptyString). constructor. Qed.

Lemma tokenize_Splits (text : string) : Splits (normalized text) (_tokenize text).
Proof. unfold _tokenize. rewrite clean_text_normalized. apply split_Splits. Qed.

(** A string without whitespace is the one token of itself. *)
Lemma split_from_no_space (t : string) : forall cur,
  no_space t -> split_from cur t = emit (cur ++ t) [].
Proof.
  induction t as [|c t IH]; intros cur Ht; cbn [split_from].
  - now rewrite append_empty_r.
  - inversion Ht as [|? ? Hc Ht']; subst.
    rewrite Hc, IH by assumption.
    now rewrite append_assoc.
Qed.

Lemma split_word (t : string) : word t -> split t = [t].
Proof.
  intros [Hne Hns]. unfold split. rewrite split_from_no_space by assumption.
  cbn [String.append]. now apply emit_nonempty.
Qed.

(** Every token of a split is a word made of characters of the text. *)
Lemma Splits_tokens s l : Splits s l ->
  forall t, In t l -> word t /\ incl (chars t) (chars s).
Proof.
  induction 1 as [|c s l Hc Hs IH|t Ht|t c s l Ht Hc Hs IH]; intros t' Hin.
  - destruct Hin.
  - destruct (IH _ Hin) as [Hw Hi]. split; [exact Hw|].
    rewrite chars_String. now apply incl_tl.
  - destruct Hin as [<-|[]]. split; [exact Ht | apply incl_refl].
  - rewrite chars_app, chars_String. destruct Hin as [<-|Hin].
    + split; [exact Ht | now apply incl_appl, incl_refl].
    + destruct (IH _ Hin) as [Hw Hi]. split; [exact Hw|].
      now apply incl_appr, incl_tl.
Qed.

(** The words in front of the first whitespace of a text are determined. *)
Lemma first_space_unique t : forall t' c c' s s',
  no_space t -> no_space t' -> isspace c = true -> isspace c' = true ->
  t ++ String c s = t' ++ String c' s' -> t = t' /\ s = s'.
Proof.
  induction t as [|a t IH]; intros t' c c' s s' Ht Ht' Hc Hc' E.
  - destruct t' as [|a' t']; cbn [String.append] in E.
    + now inversion E.
    + inversion E; subst. inversion Ht' as [|? ? Ha _]; subst. congruence.
  - inversion Ht as [|? ? Ha Htt]; subst.
    destruct t' as [|a' t']; cbn [String.append] in E.
    + inversion E; subst. congruence.
    + inversion E; subst. inversion Ht' as [|? ? _ Htt']; subst.
      destruct (IH _ _ _ _ _ Htt Htt' Hc Hc' H1) as [-> ->]. now split.
Qed.

Lemma no_space_not_mid t c s : no_space (t ++ String c s) -> isspace c = false.
Proof.
  unfold no_space. rewrite chars_app, chars_String. intros H.
  apply Forall_app in H as [_ H]. now inversion H.
Qed.

(** A text splits in one way only. *)
Lemma Splits_functional s l1 : Splits s l1 -> forall l2, Splits s l2 -> l1 = l2.
Proof.
  induction 1 as [|c s l Hc Hs IH|t Ht|t c s l Ht Hc Hs IH]; intros l2 H2.
  - inversion H2 as [| |t' [Hne _]|t' c' s' l' [Hne _] _ _ E]; subst.
    + reflexivity.
    + congruence.
    + destruct t'; [congruence | discriminate].
  - inversion H2 as [|c' s' l' _ Hs' E|t' [Hne Hns]|t' c' s' l' [Hne Hns] _ _ E]; subst.
    + now apply IH.
    + inversion Hns; subst. congruence.
    + destruct t' as [|a t']; [congruence|]. cbn [String.append] in E.
      inversion E; subst. inversion Hns; subst. congruence.
  - destruct Ht as [Hne Hns].
    inversion H2 as [|c' s' l' Hc' _ E|t' _|t' c' s' l' _ Hc' _ E]; subst.
    + congruence.
    + inversion Hns; subst. congruence.
    + reflexivity.
    + apply no_space_not_mid in Hns. congruence.
  - destruct Ht as [Hne Hns].
    inversion H2 as [|c' s' l' Hc' _ E|t' [_ Hns']|t' c' s' l' [_ Hns'] Hc' Hs' E]; subst.
    + destruct t; discriminate.
    + destruct t as [|a t]; [congruence|]. cbn [String.append] in E.
      inversion E; subst. inversion Hns; subst. congruence.
    + apply no_space_not_mid in Hns'. congruence.
    + destruct (first_space_unique _ _ _ _ _ _ Hns' Hns Hc' Hc E) as [-> ->].
      f_equal. now apply IH.
Qed.

Lemma map_fixed {A} (f : A -> A) (l : list A) :
  Forall (fun x => f x = x) l -> map f l = l.
Proof. induction 1; cbn [map]; congruence. Qed.

Lemma filter_kept {A} (f : A -> bool) (l : list A) :
  Forall (fun x => f x = true) l -> filter f l = l.
Proof.
  induction 1 as [|x l Hx _ IH]; [reflexivity|].
  cbn [filter]. now rewrite Hx, IH.
Qed.

(** A character of the normalized text is lowercase and not stripped. *)
Lemma normalized_chars text c :
  In c (chars (normalized text)) -> lower_char c = c /\ stripped c = false.
Proof.
  unfold normalized, chars. rewrite list_ascii_of_string_of_list_ascii.
  intros Hin. apply filter_In in Hin as [Hin Hs].
  apply in_map_iff in Hin as [c0 [<- _]].
  split; [apply lower_char_idem | now apply negb_true_iff].
Qed.

(** Normalizing leaves a lowercase text without stripped characters as
    it is. *)
Lemma normalized_fixed t :
  Forall (fun c => lower_char c = c /\ stripped c = false) (chars t) ->
  normalized t = t.
Proof.
  intros H. apply chars_inj. unfold normalized.
  unfold chars at 1. rewrite list_ascii_of_string_of_list_ascii.
  rewrite map_fixed by (eapply Forall_impl; [|exact H]; now intros c [? _]).
  apply filter_kept. eapply Forall_impl; [|exact H].
  intros c [_ Hs]. cbv beta. now rewrite Hs.
Qed.

End TokenizerFacts.

Module TokenizerTheorems.
Import PyStr PyStrFacts TokenizerSpec TokenizerFacts.

(** C2: the tokenizer lowercases the whole text, removes the full stop,
    the comma and the question mark and nothing else, and splits what is
    left on whitespace into its non-empty tokens, in order; the empty
    text has no tokens. *)
Theorem tokenize_contract (text : string) :
  clean_text text = normalized text
  /\ (forall l, Splits (normalized text) l <-> l = _tokenize text)
  /\ _tokenize EmptyString = [].
Proof.
  split; [apply clean_text_normalized|]. split; [|reflexivity].
  pose proof (tokenize_Splits text) as Hs.
  intros l. split.
  - intros Hl. exact (Splits_functional _ _ Hl _ Hs).
  - now intros ->.
Qed.

(** C10: a token of any text is lowercase, has none of the stripped
    characters and no whitespace, and tokenizing it alone gives back that
    one token. *)
Theorem tokenize_token_fixed (text t : string) :
  In t (_tokenize text) ->
  _tokenize t = [t]
  /\ Forall (fun c => lower_char c = c /\ stripped c = false /\ isspace c = false)
            (chars t).
Proof.
  intros Hin.
  pose proof (tokenize_Splits text) as Hsplit.
  destruct (Splits_tokens _ _ Hsplit _ Hin) as [Hword Hincl].
  assert (Forall (fun c => lower_char c = c /\ stripped c = false) (chars t)) as Hlow.
  { apply Forall_forall. intros c Hc. apply (normalized_chars text), Hincl, Hc. }
  split.
  - unfold _tokenize. rewrite clean_text_normalized, normalized_fixed by exact Hlow.
    now apply split_word.
  - destruct Hword as [_ Hns]. unfold no_space in Hns.
    apply Forall_forall. intros c Hc.
    rewrite Forall_forall in Hlow, Hns.
    destruct (Hlow _ Hc) as [H1 H2]. repeat split; auto.
Qed.

Lemma tokenize_token_fixed_witness :
  In "hello" (_tokenize "Hello, World?")
  /\ _tokenize "hello" = ["hello"]
  /\ Forall (fun c => lower_char c = c /\ stripped c = false /\ isspace c = false)
            (chars "hello").
Proof.
  assert (In "hello" (_tokenize "Hello, World?")) as Hin by (vm_compute; auto).
  split; [exact Hin|].
  exact (tokenize_token_fixed "Hello, World?" "hello" Hin).
Defined.

End TokenizerTheorems.

(** ** The service, over any engine *)

Section RouterFacts.
Context {engine obj : Type} `{PyObject obj} `{Prolog engine obj}.

(** [route_request] is its [try] body, with a raise turned into the
    fallback and a printed line. *)
Lemma route_request_unfold (user_input : string) (w : world engine) :
  route_request user_input w
  = match try_body (query user_input) w with
    | (w', Ok r) => (w', Ok r)
    | (w', Raise e) => (after_error w' e, Ok (_fallback_response (exn_str e)))
    end.
Proof.
  unfold route_request. cbn [catch Exc_Py].
  destruct (try_body (query user_input) w) as [w' [r|e]]; reflexivity.
Qed.

Lemma try_body_unfold (q : string) (w : world engine) :
  try_body q w
  = match prolog_query (prolog w) q with
    | (p, Raise e) => (World p (stdout w), Raise e)
    | (p, Ok []) =>
        (World p (stdout w), Ok (_fallback_response "No routing decision found"))
    | (p, Ok (first :: _)) =>
        (World p (stdout w),
         decision_data <- py_getitem first "Decision" ;;
         decision_record decision_data)
    end.
Proof.
  unfold try_body, run_query. cbn [bind Monad_Py].
  destruct (prolog_query (prolog w) q) as [p [[|first rest]|e]]; try reflexivity.
  cbn [ret lift Monad_res bind].
  destruct (py_getitem first "Decision"); reflexivity.
Qed.

Lemma bind_Ok {A B} (m : res A) (k : A -> res B) (b : B) :
  bind m k = Ok b -> exists a, m = Ok a /\ k a = Ok b.
Proof. destruct m as [a|e]; cbn; [eauto | discriminate]. Qed.

Lemma decision_record_success (o : obj) (r : response) :
  decision_record o = Ok r -> success_record r.
Proof.
  unfold decision_record. intros E.
  repeat (apply bind_Ok in E as [? [_ E]]).
  cbn in E. inversion E. unfold success_record. eauto 10.
Qed.

(** What the [try] body returns is the no-decision fallback or the record
    of a classification. *)
Lemma try_body_returns (q : string) (w w' : world engine) (r : response) :
  try_body q w = (w', Ok r) ->
  r = _fallback_response "No routing decision found" \/ success_record r.
Proof.
  rewrite try_body_unfold.
  destruct (prolog_query (prolog w) q) as [p [[|first rest]|e]]; intros E;
    inversion E as [[Ew Er]]; subst.
  - now left.
  - right. apply bind_Ok in Er as [o [_ Er]].
    now apply decision_record_success in Er.
Qed.

(** Every call returns a record: a fallback or the record of a
    classification. *)
Lemma route_request_total (user_input : string) (w : world engine) :
  exists w' r, route_request user_input w = (w', Ok r)
               /\ (is_fallback r \/ success_record r).
Proof.
  rewrite route_request_unfold.
  destruct (try_body (query user_input) w) as [w' [r|e]] eqn:E.
  - exists w', r. split; [reflexivity|].
    destruct (try_body_returns _ _ _ _ E) as [->|Hs]; [left; now eexists | now right].
  - eexists _, _. split; [reflexivity|]. left. now eexists.
Qed.

Lemma success_not_fallback (r : response) : success_record r -> ~ is_fallback r.
Proof.
  intros (d & s & m & v & t & sc & ->) [reason E]. discriminate E.
Qed.

Lemma success_keys (r : response) :
  success_record r -> has_key "complexity_score" r /\ ~ has_key "error" r.
Proof.
  intros (d & s & m & v & t & sc & ->). unfold has_key. cbn. split; congruence.
Qed.

Lemma fallback_keys (r : response) :
  is_fallback r -> has_key "error" r /\ ~ has_key "complexity_score" r.
Proof.
  intros [reason ->]. unfold has_key. cbn. split; congruence.
Qed.

(** The record does not depend on what was printed before, and with
    fixed rules the engine is left as it was. *)
Lemma route_request_stdout (user_input : string) (w : world engine) (out : list string) :
  snd (route_request user_input (World (prolog w) out))
  = snd (route_request user_input w).
Proof.
  rewrite !route_request_unfold, !try_body_unfold. cbn [prolog].
  destruct (prolog_query (prolog w) (query user_input)) as [p [[|first rest]|e]];
    try reflexivity.
  destruct (py_getitem first "Decision") as [d|e]; cbn [bind Monad_res];
    [destruct (decision_record d)|]; reflexivity.
Qed.

Lemma route_request_engine (user_input : string) (w : world engine) :
  rules_fixed -> prolog (fst (route_request user_input w)) = prolog w.
Proof.
  intros Hfix. rewrite route_request_unfold, try_body_unfold.
  specialize (Hfix (prolog w) (query user_input)).
  destruct (prolog_query (prolog w) (query user_input)) as [p [[|first rest]|e]];
    cbn [fst] in Hfix; subst p; try reflexivity.
  destruct (py_getitem first "Decision") as [d|e]; cbn [bind Monad_res];
    [destruct (decision_record d)|]; reflexivity.
Qed.

Lemma serve_engine (inputs : list string) : forall w : world engine,
  rules_fixed -> prolog (serve inputs w) = prolog w.
Proof.
  induction inputs as [|i inputs IH]; intros w Hfix; [reflexivity|].
  cbn [serve]. rewrite IH by assumption. now apply route_request_engine.
Qed.

End RouterFacts.

Section RouterTheorems.
Context {engine obj : Type} `{PyObject obj} `{Prolog engine obj}.

(** C1: when classification fails or yields no usable result,
    [route_request] returns the fixed fallback: domain [unknown], stakes
    [medium], model [gpt_oss_20b], validation policy [end_stage], tools
    [embeddings], and the reason of the failure under [error]; but for
    [error] the record is the same whatever the reason, so it owes
    nothing to the request or to what was computed before the failure. *)
Theorem fallback_on_failure (user_input : string) (w : world engine) (reason : string) :
  no_usable_result user_input w reason ->
  snd (route_request user_input w) = Ok (_fallback_response reason)
  /\ map fst (_fallback_response reason)
     = ["domain"; "stakes"; "model"; "validation_policy"; "tools_required"; "error"]
  /\ dict_get "domain" (_fallback_response reason) = Some (VStr "unknown")
  /\ dict_get "stakes" (_fallback_response reason) = Some (VStr "medium")
  /\ dict_get "model" (_fallback_response reason) = Some (VStr "gpt_oss_20b")
  /\ dict_get "validation_policy" (_fallback_response reason) = Some (VStr "end_stage")
  /\ dict_get "tools_required" (_fallback_response reason) = Some (VList ["embeddings"])
  /\ dict_get "error" (_fallback_response reason) = Some (VStr reason)
  /\ forall other,
       dict_remove "error" (_fallback_response other)
       = dict_remove "error" (_fallback_response reason).
Proof.
  intros Hfail. split; [|repeat split].
  rewrite route_request_unfold.
  destruct Hfail as [(w' & e & E & ->)|(p & E & ->)].
  - now rewrite E.
  - rewrite try_body_unfold, E. reflexivity.
Qed.

(** C3: whatever the engine does with the query, [route_request] raises
    nothing: it returns a record, the fallback or the record of a
    classification, and when the [try] body raised, the record is the
    fallback with the text of the exception under [error]. *)
Theorem route_request_never_raises (user_input : string) (w : world engine) :
  exists w' r,
    route_request user_input w = (w', Ok r)
    /\ (is_fallback r \/ success_record r)
    /\ (forall w1 e, try_body (query user_input) w = (w1, Raise e) ->
          r = _fallback_response (exn_str e)
          /\ dict_get "error" r = Some (VStr (exn_str e))).
Proof.
  destruct (route_request_total user_input w) as (w' & r & E & Hr).
  exists w', r. split; [exact E|]. split; [exact Hr|].
  intros w1 e Eb. rewrite route_request_unfold, Eb in E.
  inversion E; subst. now split.
Qed.

(** C7: with the rule tables fixed, a request is answered with the same
    record each time it is made, whatever was served in between. *)
Theorem route_request_deterministic
        (user_input : string) (between : list string) (w : world engine) :
  rules_fixed ->
  snd (route_request user_input (serve between (fst (route_request user_input w))))
  = snd (route_request user_input w).
Proof.
  intros Hfix.
  set (w2 := serve between (fst (route_request user_input w))).
  assert (prolog w2 = prolog w) as Ep.
  { unfold w2. rewrite serve_engine by assumption.
    now apply route_request_engine. }
  rewrite <- (route_request_stdout user_input w (stdout w2)), <- Ep.
  now destruct w2.
Qed.

(** C8: the record [route_request] returns has [complexity_score] exactly
    when it is not a fallback and [error] exactly when it is one, and
    never both. *)
Theorem score_xor_error (user_input : string) (w : world engine) :
  exists r,
    snd (route_request user_input w) = Ok r
    /\ (has_key "complexity_score" r <-> ~ is_fallback r)
    /\ (has_key "error" r <-> is_fallback r)
    /\ ~ (has_key "complexity_score" r /\ has_key "error" r).
Proof.
  destruct (route_request_total user_input w) as (w' & r & E & Hr).
  exists r. rewrite E. split; [reflexivity|].
  destruct Hr as [Hf|Hs].
  - destruct (fallback_keys r Hf) as [He Hc]. tauto.
  - destruct (success_keys r Hs) as [Hc He].
    pose proof (success_not_fallback r Hs). tauto.
Qed.

End RouterTheorems.

Lemma fallback_on_failure_witness :
  no_usable_result (obj := term) "don't" listed_world
                   "Caused by: 'route(['don't'], Decision)'."
  /\ listed_route "don't"
     = Ok (_fallback_response "Caused by: 'route(['don't'], Decision)'.").
Proof.
  assert (no_usable_result (obj := term) "don't" listed_world
                           "Caused by: 'route(['don't'], Decision)'.") as Hfail.
  { left. eexists _, _. split; vm_compute; reflexivity. }
  split; [exact Hfail|].
  exact (proj1 (fallback_on_failure (obj := term) "don't" listed_world _ Hfail)).
Defined.

Lemma listed_rules_fixed : rules_fixed (engine := Rules.engine) (obj := term).
Proof. intros p q. reflexivity. Defined.

Lemma route_request_deterministic_witness :
  rules_fixed (engine := Rules.engine) (obj := term)
  /\ snd (route_request (obj := term) "Write a creative poem about the sun."
            (serve (obj := term) ["don't"; "Banana burger sky blue."]
               (fst (route_request (obj := term)
                       "Write a creative poem about the sun." listed_world))))
     = listed_route "Write a creative poem about the sun.".
Proof.
  split; [exact listed_rules_fixed|].
  exact (route_request_deterministic (obj := term)
           "Write a creative poem about the sun."
           ["don't"; "Banana burger sky blue."] listed_world listed_rules_fixed).
Defined.

(** ** The service over the routing rules *)

Section RulesFacts.
Import Rules.
Context {obj : Type} `{Pyswip obj}.

Lemma str_each_atoms (names : list string) :
  str_each (map of_atom names) None = Ok names.
Proof.
  induction names as [|a names IH]; [reflexivity|].
  cbn [map str_each]. rewrite str_of_atom. cbn [bind Monad_res].
  rewrite IH. reflexivity.
Qed.

(** Reading the solution of a decision back gives its record. *)
Lemma solution_record (d : decision) :
  (decision_data <- py_getitem (solution d) "Decision" ;;
   decision_record decision_data) = Ok (record_of d).
Proof.
  unfold solution.
  erewrite getitem_of_dict by reflexivity. cbn [bind Monad_res].
  unfold decision_record.
  repeat (erewrite getitem_of_dict by reflexivity; cbn [bind Monad_res];
          rewrite ?str_of_atom, ?int_of_int, ?iter_of_list, ?str_each_atoms;
          cbn [bind Monad_res]).
  reflexivity.
Qed.

(** The service over the rules: the record of the decision for the atoms
    the engine reads, or the fallback when the query does not read. *)
Lemma rules_route_request (e : engine) (out : list string) (user_input : string) :
  snd (route_request user_input (World e out))
  = match reader e (query user_input) with
    | Ok atoms => Ok (record_of (route (tables e) atoms))
    | Raise x => Ok (_fallback_response (exn_str x))
    end.
Proof.
  rewrite route_request_unfold, try_body_unfold.
  cbn [prolog_query engine_prolog prolog].
  destruct (reader e (query user_input)) as [atoms|x]; cbn [bind ret Monad_res].
  - pose proof (solution_record (route (tables e) atoms)) as E.
    cbn [bind Monad_res] in E. rewrite E. reflexivity.
  - reflexivity.
Qed.

Lemma domain_name_inj (d1 d2 : domain) : domain_name d1 = domain_name d2 -> d1 = d2.
Proof. destruct d1, d2; cbn; intros E; try reflexivity; discriminate E. Qed.

Lemma mentions_recognized (t : rule_tables) (d : domain) (keywords tokens : list string) :
  In (d, keywords) (domain_rules t) ->
  mentions keywords tokens = true ->
  exists token, In token tokens /\ recognized t token = true.
Proof.
  intros Hin Hm. unfold mentions in Hm.
  apply existsb_exists in Hm as (k & Hk & Hm).
  apply existsb_exists in Hm as (token & Htok & E).
  apply String.eqb_eq in E. subst k.
  exists token. split; [exact Htok|].
  unfold recognized. apply orb_true_iff. left.
  apply existsb_exists. exists (d, keywords). split; [exact Hin|].
  apply existsb_exists. exists token. split; [exact Hk | apply String.eqb_refl].
Qed.

(** Without a recognized token the domain is [unknown]. *)
Lemma classify_unrecognized (t : rule_tables) (tokens : list string) :
  (forall token, In token tokens -> recognized t token = false) ->
  classify_domain (domain_rules t) tokens = unknown.
Proof.
  intros Hno.
  assert (forall rules, incl rules (domain_rules t) ->
                        classify_domain rules tokens = unknown) as Hall.
  { induction rules as [|[d keywords] rules IH]; intros Hincl; [reflexivity|].
    cbn [classify_domain].
    destruct (mentions keywords tokens) eqn:Hm.
    - destruct (mentions_recognized t d keywords tokens) as (token & Hin & Hr);
        [apply Hincl; now left | exact Hm |].
      rewrite (Hno _ Hin) in Hr. discriminate.
    - apply IH. intros r Hr. apply Hincl. now right. }
  apply Hall, incl_refl.
Qed.

Lemma domain_name_nonempty (d : domain) : domain_name d <> EmptyString.
Proof. destruct d; discriminate. Qed.

Lemma stakes_name_nonempty (s : stakes) : stakes_name s <> EmptyString.
Proof. destruct s; discriminate. Qed.

Lemma model_name_nonempty (m : model_id) : model_name m <> EmptyString.
Proof. destruct m; discriminate. Qed.

Lemma validation_name_nonempty (v : validation_policy) : validation_name v <> EmptyString.
Proof. destruct v; discriminate. Qed.

Lemma select_model_unknown (s : stakes) : select_model unknown s = gpt_oss_20b.
Proof. destruct s; reflexivity. Qed.

End RulesFacts.

Section RulesTheorems.
Import Rules.
Context {obj : Type} `{Pyswip obj}.

(** C4: over the routing rules, a request classified into
    [coding_architecture] is returned with stakes [high], model
    [qwen_coder_32b] and validation policy [block_by_block], whatever the
    tables and the score. *)
Theorem architecture_override
        (e : engine) (out : list string) (user_input : string) (r : response) :
  snd (route_request user_input (World e out)) = Ok r ->
  dict_get "domain" r = Some (VStr "coding_architecture") ->
  dict_get "stakes" r = Some (VStr "high")
  /\ dict_get "model" r = Some (VStr "qwen_coder_32b")
  /\ dict_get "validation_policy" r = Some (VStr "block_by_block").
Proof.
  rewrite rules_route_request.
  destruct (reader e (query user_input)) as [atoms|x]; intros E Hd;
    inversion E; subst r; clear E.
  - cbn in Hd. inversion Hd as [Hname].
    change "coding_architecture" with (domain_name coding_architecture) in Hname.
    apply domain_name_inj in Hname.
    cbn [record_of dict_get String.eqb Ascii.eqb Bool.eqb route d_stakes d_model
         d_validation d_domain] in *.
    rewrite Hname. cbn. auto.
  - cbn in Hd. discriminate Hd.
Qed.

(** C6: over the routing rules, every request is returned a record whose
    domain, stakes, model and validation policy are present and not
    empty, be it a classification or the fallback. *)
Theorem fields_non_empty (e : engine) (out : list string) (user_input : string) :
  exists r,
    snd (route_request user_input (World e out)) = Ok r
    /\ forall k, In k ["domain"; "stakes"; "model"; "validation_policy"] ->
                 exists v, dict_get k r = Some (VStr v) /\ v <> EmptyString.
Proof.
  rewrite rules_route_request.
  destruct (reader e (query user_input)) as [atoms|x].
  - eexists. split; [reflexivity|].
    intros k [<-|[<-|[<-|[<-|[]]]]];
      cbn [record_of dict_get String.eqb Ascii.eqb Bool.eqb];
      eexists; (split; [reflexivity|]).
    + apply domain_name_nonempty.
    + apply stakes_name_nonempty.
    + apply model_name_nonempty.
    + apply validation_name_nonempty.
  - eexists. split; [reflexivity|].
    intros k [<-|[<-|[<-|[<-|[]]]]]; cbn; eexists; (split; [reflexivity|]);
      discriminate.
Qed.

(** C5: over the routing rules, a request in which the engine recognizes
    no domain or stakes keyword is returned with domain [unknown] and
    model [gpt_oss_20b]; and over any engine, a query without a solution
    is answered with the fixed fallback whose error text is
    "No routing decision found". *)
Theorem unknown_without_keywords :
  (forall (e : engine) (out : list string) (user_input : string),
      (forall token, In token (request_atoms e user_input) ->
                     recognized (tables e) token = false) ->
      exists r,
        snd (route_request user_input (World e out)) = Ok r
        /\ dict_get "domain" r = Some (VStr "unknown")
        /\ dict_get "model" r = Some (VStr "gpt_oss_20b"))
  /\ (forall (E : Type) (P : Prolog E obj) (w : world E) (p : E) (user_input : string),
         prolog_query (prolog w) (query user_input) = (p, Ok []) ->
         snd (route_request user_input w)
         = Ok (_fallback_response "No routing decision found")).
Proof.
  split.
  - intros e out user_input Hno. rewrite rules_route_request.
    unfold request_atoms in Hno.
    destruct (reader e (query user_input)) as [atoms|x].
    + eexists. split; [reflexivity|].
      cbn [record_of dict_get String.eqb Ascii.eqb Bool.eqb route d_domain d_model].
      rewrite (classify_unrecognized _ _ Hno), select_model_unknown.
      split; reflexivity.
    + eexists. split; [reflexivity|]. split; reflexivity.
  - intros E P w p user_input Eq.
    rewrite route_request_unfold, try_body_unfold, Eq. reflexivity.
Qed.

End RulesTheorems.

Lemma architecture_override_witness :
  exists r,
    listed_route "Refactor the system architecture to use dependency injection." = Ok r
    /\ dict_get "domain" r = Some (VStr "coding_architecture")
    /\ dict_get "stakes" r = Some (VStr "high")
    /\ dict_get "model" r = Some (VStr "qwen_coder_32b")
    /\ dict_get "validation_policy" r = Some (VStr "block_by_block").
Proof.
  pose (r := [ ("domain", VStr "coding_architecture"); ("stakes", VStr "high");
               ("model", VStr "qwen_coder_32b");
               ("validation_policy", VStr "block_by_block");
               ("tools_required", VList []); ("complexity_score", VInt 0) ]).
  assert (listed_route "Refactor the system architecture to use dependency injection."
          = Ok r) as Hr by (vm_compute; reflexivity).
  assert (dict_get "domain" r = Some (VStr "coding_architecture")) as Hd
      by reflexivity.
  exists r. split; [exact Hr|]. split; [exact Hd|].
  exact (architecture_override (obj := term) listed_engine [] _ r Hr Hd).
Defined.

Lemma unknown_without_keywords_witness :
  (exists r, listed_route "Banana burger sky blue." = Ok r
             /\ dict_get "domain" r = Some (VStr "unknown")
             /\ dict_get "model" r = Some (VStr "gpt_oss_20b"))
  /\ snd (route_request (P := no_clause) "Banana burger sky blue." (World tt []))
     = Ok (_fallback_response "No routing decision found").
Proof.
  split.
  - apply (proj1 (unknown_without_keywords (obj := term)) listed_engine []).
    vm_compute. intros token [<-|[<-|[<-|[<-|[]]]]]; reflexivity.
  - exact (proj2 (unknown_without_keywords (obj := term)) unit no_clause
                 (World tt []) tt "Banana burger sky blue." eq_refl).
Defined.

(** ** Apostrophes, and how the query reads *)

Module ReaderFacts.
Import PyStr PyStrFacts TokenizerSpec TokenizerFacts PrologSyntax.

Lemma count_String c x s :
  count c (String x s) = (if ascii_dec x c then 1 else 0) + count c s.
Proof.
  unfold count. rewrite chars_String. cbn [count_occ].
  destruct (ascii_dec x c); reflexivity.
Qed.

Lemma count_app c s1 s2 : count c (s1 ++ s2) = count c s1 + count c s2.
Proof. unfold count. now rewrite chars_app, count_occ_app. Qed.

Lemma length_app s1 s2 :
  String.length (s1 ++ s2) = String.length s1 + String.length s2.
Proof. induction s1 as [|c s1 IH]; cbn; [reflexivity | now rewrite IH]. Qed.

Lemma count_occ_filter (f : ascii -> bool) (c : ascii) (l : list ascii) :
  f c = true -> count_occ ascii_dec (filter f l) c = count_occ ascii_dec l c.
Proof.
  intros Hf. induction l as [|x l IH]; [reflexivity|].
  cbn [filter count_occ]. destruct (ascii_dec x c) as [->|Hne].
  - rewrite Hf. cbn [count_occ]. destruct (ascii_dec c c); congruence.
  - destruct (f x); [cbn [count_occ]; destruct (ascii_dec x c); congruence | exact IH].
Qed.

Lemma count_occ_lower_quote (l : list ascii) :
  count_occ ascii_dec (map lower_char l) quote = count_occ ascii_dec l quote.
Proof.
  induction l as [|x l IH]; [reflexivity|].
  cbn [map count_occ].
  destruct (ascii_dec (lower_char x) quote) as [E|E], (ascii_dec x quote) as [E'|E'];
    rewrite IH; try reflexivity; exfalso.
  - apply E'. now apply lower_char_quote.
  - apply E. now apply lower_char_quote.
Qed.

Lemma join_cons sep x y l : join sep (x :: y :: l) = x ++ sep ++ join sep (y :: l).
Proof. reflexivity. Qed.

Lemma chars_join_empty (l : list string) :
  chars (join EmptyString l) = List.concat (map chars l).
Proof.
  induction l as [|x [|y l] IH]; [reflexivity | |].
  - cbn. now rewrite app_nil_r.
  - rewrite join_cons, chars_app. cbn [String.append map List.concat].
    now rewrite IH.
Qed.

(** The tokens of a split, put end to end, are the text without its
    whitespace. *)
Lemma Splits_chars s l : Splits s l ->
  List.concat (map chars l) = filter (fun c => negb (isspace c)) (chars s).
Proof.
  assert (forall t, word t -> filter (fun c => negb (isspace c)) (chars t) = chars t)
    as Hword.
  { intros t [_ Hns]. apply filter_kept. eapply Forall_impl; [|exact Hns].
    cbv beta. now intros c ->. }
  induction 1 as [|c s l Hc Hs IH|t Ht|t c s l Ht Hc Hs IH].
  - reflexivity.
  - rewrite chars_String. cbn [filter]. now rewrite Hc.
  - cbn. now rewrite app_nil_r, Hword.
  - rewrite chars_app, chars_String, filter_app. cbn [filter map List.concat].
    now rewrite Hc, Hword, IH.
Qed.

(** Tokenization keeps every apostrophe of the text. *)
Lemma tokenize_quotes (text : string) :
  quotes (join EmptyString (_tokenize text)) = quotes text.
Proof.
  unfold quotes, count.
  rewrite chars_join_empty, (Splits_chars _ _ (tokenize_Splits text)).
  rewrite count_occ_filter by reflexivity.
  unfold normalized, chars at 1. rewrite list_ascii_of_string_of_list_ascii.
  rewrite count_occ_filter by reflexivity.
  apply count_occ_lower_quote.
Qed.

Lemma quotes_join_empty (l : list string) :
  quotes (join EmptyString l) = list_sum (map quotes l).
Proof.
  induction l as [|x [|y l] IH];
    [reflexivity | cbn [join String.concat map list_sum fold_right]; lia |].
  rewrite join_cons. unfold quotes in *. rewrite !count_app, IH. reflexivity.
Qed.

Lemma quotes_positive (s : string) : In quote (chars s) <-> 0 < quotes s.
Proof. unfold quotes, count. apply count_occ_In. Qed.

Lemma list_sum_positive {A} (f : A -> nat) (l : list A) :
  0 < list_sum (map f l) -> exists x, In x l /\ 0 < f x.
Proof.
  induction l as [|x l IH]; cbn [map list_sum fold_right]; intros Hs; [lia|].
  destruct (Nat.eq_dec (f x) 0) as [E|E].
  - destruct IH as (y & Hin & Hy); [unfold list_sum; lia|].
    exists y. split; [now right | exact Hy].
  - exists x. split; [now left | lia].
Qed.

(** An apostrophe of the text is in one of its tokens. *)
Lemma apostrophe_in_token (text : string) :
  In quote (chars text) ->
  exists t, In t (_tokenize text) /\ In quote (chars t).
Proof.
  intros Hq. apply quotes_positive in Hq.
  rewrite <- tokenize_quotes, quotes_join_empty in Hq.
  apply list_sum_positive in Hq as (t & Hin & Ht).
  exists t. split; [exact Hin | now apply quotes_positive].
Qed.

(** Each token stands in the list text between two single quotes, as it
    is. *)
Lemma quoted_in_list (tokens : list string) (t : string) :
  In t tokens ->
  exists pre post, prolog_list_str tokens = pre ++ quoted t ++ post.
Proof.
  unfold prolog_list_str. intros Hin.
  assert (exists pre post, join "," (map quoted tokens) = pre ++ quoted t ++ post)
    as (pre & post & E).
  { induction tokens as [|x [|y l] IH]; [destruct Hin | |].
    - destruct Hin as [<-|[]]. exists EmptyString, EmptyString. cbn [map join String.concat].
      now rewrite append_empty_r.
    - destruct Hin as [<-|Hin].
      + exists EmptyString, ("," ++ join "," (map quoted (y :: l))). reflexivity.
      + destruct (IH Hin) as (pre & post & E).
        exists (quoted x ++ "," ++ pre), post.
        cbn [map] in *. rewrite join_cons, E.
        now rewrite !append_assoc. }
  exists ("[" ++ pre), (post ++ "]"). rewrite E.
  cbn [String.append]. now rewrite !append_assoc.
Qed.

(** *** What a successful read says of the length of the text *)

Lemma plain_not_quote c : plain c = true -> c <> quote.
Proof. intros Hp ->. discriminate Hp. Qed.

Lemma quotes_snoc cur c :
  quotes (cur ++ String c EmptyString) = quotes cur + (if ascii_dec c quote then 1 else 0).
Proof. unfold quotes. rewrite count_app, count_String. cbn. lia. Qed.

Lemma length_snoc cur c : String.length (cur ++ String c EmptyString) = String.length cur + 1.
Proof. rewrite length_app. reflexivity. Qed.

Lemma read_atoms_length (s : string) : forall st cur atoms rest,
  read_atoms st cur s = Some (atoms, rest) ->
  String.length s + pending st cur
  = list_sum (map width atoms) + String.length rest.
Proof.
  induction s as [|c s IH]; intros st cur atoms rest E; [discriminate E|].
  cbn [read_atoms] in E. destruct st.
  - destruct (Ascii.eqb c "'"); [|discriminate E].
    apply IH in E. cbn [pending String.length] in *. cbn in E. lia.
  - destruct (Ascii.eqb c "'").
    + apply IH in E. cbn [pending String.length] in *. lia.
    + destruct (plain c) eqn:Hp; [|discriminate E].
      apply IH in E. cbn [pending String.length] in *.
      rewrite quotes_snoc, length_snoc in E.
      destruct (ascii_dec c quote) as [->|_]; [discriminate Hp | lia].
  - destruct (Ascii.eqb c "'").
    + apply IH in E. cbn [pending String.length] in *.
      rewrite quotes_snoc, length_snoc in E. cbn in E. lia.
    + destruct (Ascii.eqb c ",").
      * destruct (read_atoms AtomStart EmptyString s) as [[atoms' rest']|] eqn:E';
          [|discriminate E].
        inversion E; subst. apply IH in E'.
        change (list_sum (map width (cur :: atoms')))
          with (width cur + list_sum (map width atoms')).
        cbn [pending String.length] in *. unfold width at 1. lia.
      * destruct (Ascii.eqb c "]"); [|discriminate E].
        inversion E; subst.
        change (list_sum (map width [cur])) with (width cur + 0).
        cbn [pending String.length]. unfold width. lia.
Qed.

Lemma length_quoted (t : string) : String.length (quoted t) = String.length t + 2.
Proof.
  unfold quoted. cbn [String.append String.length].
  rewrite length_app. cbn [String.length]. lia.
Qed.

Lemma list_sum_cons (x : nat) (l : list nat) : list_sum (x :: l) = x + list_sum l.
Proof. reflexivity. Qed.

Lemma length_join_quoted (tokens : list string) :
  tokens <> [] ->
  String.length (join "," (map quoted tokens)) + 1
  = list_sum (map (fun t => String.length t + 3) tokens).
Proof.
  induction tokens as [|x [|y l] IH]; intros Hne; [congruence | |].
  - cbn [map join String.concat]. rewrite list_sum_cons, length_quoted.
    cbn [list_sum fold_right]. lia.
  - specialize (IH ltac:(discriminate)).
    cbn [map] in *. rewrite join_cons, !length_app, length_quoted.
    rewrite list_sum_cons. cbn [String.length]. lia.
Qed.

Lemma list_sum_width (tokens : list string) :
  list_sum (map width tokens)
  = list_sum (map (fun t => String.length t + 3) tokens) + list_sum (map quotes tokens).
Proof.
  induction tokens as [|t l IH]; [reflexivity|].
  cbn [map]. rewrite !list_sum_cons. unfold width at 1. lia.
Qed.

Lemma strip_prefix_app (p s : string) : strip_prefix p (p ++ s) = Some s.
Proof.
  induction p as [|c p IH]; [reflexivity|].
  cbn [String.append strip_prefix]. now rewrite Ascii.eqb_refl.
Qed.

Lemma join_quoted_cons (t : string) (l : list string) :
  exists body, join "," (map quoted (t :: l)) = String "'" body.
Proof.
  destruct l as [|y l].
  - eexists. cbn [map join String.concat]. unfold quoted.
    cbn [String.append]. reflexivity.
  - eexists. cbn [map]. rewrite join_cons. unfold quoted at 1.
    cbn [String.append]. reflexivity.
Qed.

(** If the text of the list reads as the very tokens it was written
    from, no token has an apostrophe. *)
Lemma read_back_no_quotes (tokens : list string) (suffix : string) :
  read_list (prolog_list_str tokens ++ suffix) = Some (tokens, suffix) ->
  list_sum (map quotes tokens) = 0.
Proof.
  destruct tokens as [|t l]; [reflexivity|].
  pose proof (length_join_quoted (t :: l) ltac:(discriminate)) as Hj.
  unfold prolog_list_str.
  destruct (join_quoted_cons t l) as (body & Ej). rewrite Ej in *.
  cbn [String.append read_list]. intros Hr.
  apply read_atoms_length in Hr. cbn [pending] in Hr.
  rewrite list_sum_width in Hr.
  cbn [String.length] in Hr, Hj. rewrite !length_app in Hr.
  cbn [String.length] in Hr. lia.
Qed.

Lemma read_atoms_plain (t : string) : forall cur s,
  plain_token t ->
  read_atoms InAtom cur (t ++ s) = read_atoms InAtom (cur ++ t) s.
Proof.
  unfold plain_token.
  induction t as [|c t IH]; intros cur s Hp.
  - now rewrite append_empty_r.
  - rewrite chars_String in Hp. cbn [forallb] in Hp.
    apply andb_true_iff in Hp as [Hc Ht].
    cbn [String.append read_atoms].
    assert (Ascii.eqb c "'" = false) as ->
        by (apply Ascii.eqb_neq; now apply plain_not_quote).
    rewrite Hc, IH by assumption. now rewrite append_assoc.
Qed.

Lemma read_atoms_quoted (t s : string) :
  plain_token t ->
  read_atoms AtomStart EmptyString (quoted t ++ s) = read_atoms QuoteSeen t s.
Proof.
  intros Hp. unfold quoted. cbn [String.append read_atoms Ascii.eqb Bool.eqb].
  rewrite append_assoc, read_atoms_plain by assumption.
  reflexivity.
Qed.

Lemma read_atoms_tokens (tokens : list string) (rest : string) :
  tokens <> [] -> Forall plain_token tokens ->
  read_atoms AtomStart EmptyString (join "," (map quoted tokens) ++ String "]" rest)
  = Some (tokens, rest).
Proof.
  induction tokens as [|x [|y l] IH]; intros Hne Hp; [congruence | |];
    inversion Hp as [|? ? Hx Hl]; subst.
  - cbn [map join String.concat]. rewrite read_atoms_quoted by assumption.
    reflexivity.
  - cbn [map] in *. rewrite join_cons, !append_assoc.
    rewrite read_atoms_quoted by assumption.
    cbn [String.append read_atoms Ascii.eqb Bool.eqb].
    now rewrite IH.
Qed.

Lemma read_list_quoted (J rest : string) :
  (exists body, J = String "'" body) ->
  read_list (("[" ++ J ++ "]") ++ rest)
  = read_atoms AtomStart EmptyString (J ++ String "]" rest).
Proof.
  intros [body ->]. cbn [String.append read_list].
  rewrite append_assoc. reflexivity.
Qed.

(** A query written from plain tokens reads back as those tokens. *)
Lemma read_query_plain (text : string) :
  Forall plain_token (_tokenize text) ->
  read_query (query text) = Some (_tokenize text).
Proof.
  intros Hp. unfold read_query, query. rewrite strip_prefix_app.
  unfold prolog_list_str.
  destruct (_tokenize text) as [|t l] eqn:E; [reflexivity|].
  rewrite read_list_quoted by apply join_quoted_cons.
  rewrite read_atoms_tokens by (assumption || discriminate).
  reflexivity.
Qed.

(** A query that reads as the tokens it was written from has no
    apostrophe in it. *)
Lemma read_query_tokens (text : string) :
  read_query (query text) = Some (_tokenize text) ->
  ~ In quote (chars text).
Proof.
  unfold read_query, query. rewrite strip_prefix_app.
  destruct (read_list (prolog_list_str (_tokenize text) ++ ", Decision)"))
    as [[atoms rest]|] eqn:E; [|discriminate].
  destruct (String.eqb_spec rest ", Decision)") as [->|_]; [|discriminate].
  intros Ea. inversion Ea; subst atoms.
  apply read_back_no_quotes in E.
  intros Hq. apply quotes_positive in Hq.
  rewrite <- tokenize_quotes, quotes_join_empty in Hq. lia.
Qed.

End ReaderFacts.

Section PlainRequests.
Import Rules PrologSyntax ReaderFacts.
Context {obj : Type} `{Pyswip obj}.

(** Over an engine that reads queries by Prolog's quoting rule, the atoms
    of a request made of plain tokens are its tokens. *)
Lemma request_atoms_plain (t : rule_tables) (user_input : string) :
  Forall plain_token (_tokenize user_input) ->
  request_atoms (quoting_engine t) user_input = _tokenize user_input.
Proof.
  intros Hp. unfold request_atoms, quoting_engine, PrologSyntax.reader.
  cbn [Rules.reader]. now rewrite read_query_plain.
Qed.

(** So a request of plain tokens none of which is recognized is answered
    with the decision for the [unknown] domain. *)
Lemma unknown_for_plain_tokens (t : rule_tables) (out : list string) (user_input : string) :
  Forall plain_token (_tokenize user_input) ->
  (forall token, In token (_tokenize user_input) -> recognized t token = false) ->
  exists r,
    snd (route_request user_input (World (quoting_engine t) out)) = Ok r
    /\ dict_get "domain" r = Some (VStr "unknown")
    /\ dict_get "model" r = Some (VStr "gpt_oss_20b")
    /\ has_key "complexity_score" r.
Proof.
  intros Hp Hno. rewrite rules_route_request.
  unfold quoting_engine. cbn [Rules.reader Rules.tables]. unfold PrologSyntax.reader.
  rewrite read_query_plain by assumption.
  eexists. split; [reflexivity|].
  cbn [record_of dict_get String.eqb Ascii.eqb Bool.eqb route d_domain d_model].
  rewrite (classify_unrecognized _ _ Hno), select_model_unknown.
  repeat split. unfold has_key. cbn. congruence.
Qed.

End PlainRequests.

Section ApostropheTheorem.
Import Rules.
Context {obj : Type} `{Pyswip obj}.

(** C9: the comment of line 34 has the token list written as a Prolog
    list, but a token goes between the two single quotes unescaped.  At
    the text [it''s] the query is not malformed: it is the well-formed
    query on the atom [it's], which is not the token, and over the
    routing rules, whatever their tables, the request is answered with
    the classification of that other atom and not with the fallback. *)
Theorem apostrophe_not_escaped (t : rule_tables) (out : list string) :
  _tokenize "it''s" = ["it''s"]
  /\ query "it''s" = "route(['it''s'], Decision)"
  /\ PrologSyntax.read_query (query "it''s") = Some ["it's"]
  /\ snd (route_request "it''s" (World (quoting_engine t) out))
     = Ok (record_of (route t ["it's"]))
  /\ has_key "complexity_score" (record_of (route t ["it's"]))
  /\ ~ is_fallback (record_of (route t ["it's"])).
Proof.
  split; [reflexivity|]. split; [reflexivity|]. split; [reflexivity|].
  split; [|split].
  - rewrite rules_route_request. reflexivity.
  - unfold has_key. cbn. congruence.
  - intros [reason E]. discriminate E.
Qed.

End ApostropheTheorem.

(** ** The prompts of the test suite *)

Example tokenize_prompt :
  _tokenize "Refactor the system architecture, to use Dependency injection?"
  = ["refactor"; "the"; "system"; "architecture"; "to"; "use"; "dependency"; "injection"].
Proof. reflexivity. Qed.

Example tokenize_whitespace :
  _tokenize (String "009" " Scan  this" ++ String "010" "PDF. ") = ["scan"; "this"; "pdf"].
Proof. reflexivity. Qed.

Example query_banana :
  query "Banana burger sky blue."
  = "route(['banana','burger','sky','blue'], Decision)".
Proof. reflexivity. Qed.

Example listed_architecture :
  listed_route "Refactor the system architecture to use dependency injection."
  = Ok [ ("domain", VStr "coding_architecture"); ("stakes", VStr "high");
         ("model", VStr "qwen_coder_32b"); ("validation_policy", VStr "block_by_block");
         ("tools_required", VList []); ("complexity_score", VInt 0) ].
Proof. vm_compute. reflexivity. Qed.

Example listed_creative :
  listed_route "Write a creative poem about the sun."
  = Ok [ ("domain", VStr "creative"); ("stakes", VStr "low");
         ("model", VStr "mythomax_13b"); ("validation_policy", VStr "none");
         ("tools_required", VList []); ("complexity_score", VInt 0) ].
Proof. vm_compute. reflexivity. Qed.

Example listed_optimize :
  listed_route "Optimize this python function loop for better performance."
  = Ok [ ("domain", VStr "coding_implementation"); ("stakes", VStr "medium");
         ("model", VStr "nemotron_30b"); ("validation_policy", VStr "end_stage");
         ("tools_required", VList []); ("complexity_score", VInt 2) ].
Proof. vm_compute. reflexivity. Qed.

Example listed_tools :
  listed_route "Scan this pdf image and find similar files."
  = Ok [ ("domain", VStr "documents"); ("stakes", VStr "low");
         ("model", VStr "gpt_oss_20b"); ("validation_policy", VStr "end_stage");
         ("tools_required", VList ["ocr"; "vision"; "embeddings"]);
         ("complexity_score", VInt 0) ].
Proof. vm_compute. reflexivity. Qed.

Example listed_apostrophe :
  listed_route "don't"
  = Ok (_fallback_response "Caused by: 'route(['don't'], Decision)'.").
Proof. vm_compute. reflexivity. Qed.

Example listed_one_apostrophe :
  query "it's" = "route(['it's'], Decision)"
  /\ PrologSyntax.read_query (query "it's") = None
  /\ listed_route "it's"
     = Ok (_fallback_response "Caused by: 'route(['it's'], Decision)'.").
Proof. repeat split; vm_compute; reflexivity. Qed.

Example read_two_tokens_as_one :
  PrologSyntax.read_query (query "a' 'b") = Some ["a','b"].
Proof. reflexivity. Qed.

(** What was read of an answer before a conversion fails is dropped: the
    domain below was read as [creative], and the record is the fallback. *)
Example partial_answer_discarded :
  snd (route_request (P := no_score) "Write a poem." (World tt []))
  = Ok (_fallback_response "'score'").
Proof. reflexivity. Qed.

(** * Further properties of the code *)

(** ** More on the tokenizer *)

Module TokenizerMore.
Import PyStr PyStrFacts TokenizerSpec TokenizerFacts.

Lemma string_of_list_app (l1 l2 : list ascii) :
  string_of_list_ascii (l1 ++ l2)
  = string_of_list_ascii l1 ++ string_of_list_ascii l2.
Proof. induction l1 as [|c l1 IH]; cbn; [reflexivity | now rewrite IH]. Qed.

Lemma normalized_app (a b : string) :
  normalized (a ++ b) = normalized a ++ normalized b.
Proof.
  unfold normalized. now rewrite chars_app, map_app, filter_app, string_of_list_app.
Qed.

Lemma space_fixed (c : ascii) :
  isspace c = true -> lower_char c = c /\ stripped c = false.
Proof. destruct c as [[] [] [] [] [] [] [] []]; cbv; intros E; (discriminate E || now split). Qed.

Lemma lower_char_stripped (c : ascii) : stripped (lower_char c) = stripped c.
Proof. destruct c as [[] [] [] [] [] [] [] []]; reflexivity. Qed.

Lemma lower_char_space (c : ascii) : isspace (lower_char c) = isspace c.
Proof. destruct c as [[] [] [] [] [] [] [] []]; reflexivity. Qed.

Lemma normalized_char (c : ascii) :
  normalized (String c EmptyString)
  = if stripped c then EmptyString else String (lower_char c) EmptyString.
Proof.
  unfold normalized. cbn [chars list_ascii_of_string map filter].
  rewrite lower_char_stripped. now destruct (stripped c).
Qed.

Lemma emit_app (cur : string) (l : list string) : emit cur l = (emit cur [] ++ l)%list.
Proof. now destruct cur. Qed.

Lemma split_from_space (a : string) : forall cur c b,
  isspace c = true ->
  split_from cur (a ++ String c b) = (split_from cur a ++ split b)%list.
Proof.
  induction a as [|x a IH]; intros cur c b Hc; cbn [String.append split_from].
  - rewrite Hc. apply emit_app.
  - destruct (isspace x).
    + rewrite (emit_app cur (split_from _ a)), <- app_assoc, <- (IH EmptyString c b Hc).
      apply emit_app.
    + now apply IH.
Qed.

Lemma split_space (a b : string) (c : ascii) :
  isspace c = true -> split (a ++ String c b) = (split a ++ split b)%list.
Proof. apply split_from_space. Qed.

Lemma String_app (c : ascii) (s : string) : String c s = String c EmptyString ++ s.
Proof. reflexivity. Qed.

(** X3: tokenizing two texts set apart by a whitespace character gives
    the tokens of the first followed by the tokens of the second. *)
Theorem tokenize_whitespace_between (a b : string) (c : ascii) :
  isspace c = true ->
  _tokenize (a ++ String c b) = (_tokenize a ++ _tokenize b)%list.
Proof.
  intros Hc. unfold _tokenize. rewrite !clean_text_normalized.
  rewrite (String_app c b), !normalized_app, normalized_char.
  destruct (space_fixed c Hc) as [-> ->].
  rewrite <- String_app. now apply split_space.
Qed.

Lemma tokenize_whitespace_between_witness :
  isspace " "%char = true
  /\ _tokenize ("Scan this" ++ String " " "PDF.") = (_tokenize "Scan this" ++ _tokenize "PDF.")%list.
Proof.
  split; [reflexivity|].
  exact (tokenize_whitespace_between "Scan this" "PDF." " " eq_refl).
Defined.

(** In the model, where [lower] works character by character, a stripped
    character can be taken out of the text itself. *)
Lemma tokenize_stripped_app (a b : string) (c : ascii) :
  stripped c = true ->
  _tokenize (a ++ String c b) = _tokenize (a ++ b).
Proof.
  intros Hc. unfold _tokenize. rewrite !clean_text_normalized.
  rewrite (String_app c b), !normalized_app, normalized_char, Hc.
  reflexivity.
Qed.

Lemma split_nil_iff (s : string) :
  split s = [] <-> Forall (fun c => isspace c = true) (chars s).
Proof.
  split.
  - intros E. pose proof (split_Splits s) as Hs. rewrite E in Hs.
    remember [] as l eqn:El in Hs.
    induction Hs as [|c s l Hc Hs IH|t Ht|t c s l Ht Hc Hs IH]; try discriminate El.
    + constructor.
    + rewrite chars_String. constructor; [exact Hc|].
      apply IH; [|exact El]. subst l.
      apply (Splits_functional _ _ (split_Splits s) _ Hs).
  - intros Hall. unfold split.
    induction s as [|c s IH]; [reflexivity|].
    rewrite chars_String in Hall. inversion Hall as [|? ? Hc Hs]; subst.
    cbn [split_from]. rewrite Hc. cbn [emit]. now apply IH.
Qed.

Lemma tokenize_nil (text : string) :
  _tokenize text = []
  <-> Forall (fun c => isspace c = true \/ stripped c = true) (chars text).
Proof.
  unfold _tokenize. rewrite clean_text_normalized, split_nil_iff.
  unfold normalized, chars at 1. rewrite list_ascii_of_string_of_list_ascii.
  rewrite !Forall_forall. split.
  - intros Hall c Hc.
    destruct (stripped c) eqn:Hs; [now right | left].
    rewrite <- lower_char_space. apply Hall.
    apply filter_In. split; [now apply in_map|].
    now rewrite lower_char_stripped, Hs.
  - intros Hall c Hc. apply filter_In in Hc as [Hc Hs].
    apply in_map_iff in Hc as (c0 & <- & Hc0).
    rewrite lower_char_stripped in Hs. rewrite lower_char_space.
    destruct (Hall _ Hc0) as [H|H]; [exact H|].
    rewrite H in Hs. discriminate Hs.
Qed.

(** X4: a text has no tokens exactly when each of its characters is
    whitespace or one of the three stripped characters. *)
Theorem tokenize_nil_iff (text : string) :
  _tokenize text = []
  <-> Forall (fun c => isspace c = true \/ stripped c = true) (chars text).
Proof. apply tokenize_nil. Qed.

End TokenizerMore.

Module TokenizerRoundTrip.
Import PyStr PyStrFacts TokenizerSpec TokenizerFacts TokenizerMore ReaderFacts.

(** A token of a text tokenizes to itself. *)
Lemma token_fixed (text t : string) : In t (_tokenize text) -> _tokenize t = [t].
Proof.
  intros Hin.
  destruct (Splits_tokens _ _ (tokenize_Splits text) _ Hin) as [Hword Hincl].
  unfold _tokenize. rewrite clean_text_normalized, normalized_fixed.
  - now apply split_word.
  - apply Forall_forall. intros c Hc. apply (normalized_chars text), Hincl, Hc.
Qed.

Lemma tokenize_space_app (a b : string) :
  _tokenize (a ++ String " " b) = (_tokenize a ++ _tokenize b)%list.
Proof.
  unfold _tokenize. rewrite !clean_text_normalized.
  rewrite (String_app " " b), !normalized_app.
  change (normalized (String " " EmptyString)) with (String " " EmptyString).
  rewrite <- String_app. now apply split_space.
Qed.

Lemma tokenize_join (l : list string) :
  Forall (fun t => _tokenize t = [t]) l -> _tokenize (join " " l) = l.
Proof.
  induction l as [|t [|y l] IH]; intros Hall; [reflexivity | |].
  - inversion Hall; subst. assumption.
  - inversion Hall as [|? ? Ht Hl]; subst.
    rewrite join_cons. cbn [String.append].
    rewrite tokenize_space_app, Ht, (IH Hl). reflexivity.
Qed.

(** X6: the tokens of a text, joined with single spaces, tokenize back to
    the same tokens. *)
Theorem tokenize_join_tokens (text : string) :
  _tokenize (join " " (_tokenize text)) = _tokenize text.
Proof.
  apply tokenize_join. apply Forall_forall. intros t Hin.
  now apply (token_fixed text).
Qed.

Lemma length_chars (s : string) : String.length s = List.length (chars s).
Proof. induction s as [|c s IH]; [reflexivity|]. rewrite chars_String. cbn. now rewrite IH. Qed.

Lemma normalized_length (text : string) :
  String.length (normalized text) <= String.length text.
Proof.
  rewrite !length_chars. unfold normalized, chars at 1.
  rewrite list_ascii_of_string_of_list_ascii.
  etransitivity; [apply filter_length_le|]. now rewrite length_map.
Qed.

Lemma Splits_length (s : string) (l : list string) :
  Splits s l -> String.length (join " " l) <= String.length s.
Proof.
  induction 1 as [|c s l Hc Hs IH|t Ht|t c s l Ht Hc Hs IH].
  - reflexivity.
  - cbn [String.length]. lia.
  - reflexivity.
  - rewrite length_app. cbn [String.length]. destruct l as [|y l].
    + cbn [join String.concat]. lia.
    + rewrite join_cons, length_app. cbn [String.append String.length]. lia.
Qed.

Lemma normalized_lower (text : string) : normalized (lower text) = normalized text.
Proof.
  unfold normalized. rewrite chars_lower, map_map.
  f_equal. f_equal. apply map_ext. intros c. apply lower_char_idem.
Qed.

Lemma tokenize_lower (text : string) : _tokenize (lower text) = _tokenize text.
Proof. unfold _tokenize. now rewrite !clean_text_normalized, normalized_lower. Qed.

Lemma normalized_length_lower (text : string) :
  String.length (normalized text) <= String.length (lower text).
Proof.
  rewrite !length_chars, chars_lower. unfold normalized, chars at 1.
  rewrite list_ascii_of_string_of_list_ascii. apply filter_length_le.
Qed.

(** X5: the tokens of a text, joined with single spaces, are never longer
    than the lowercased text: after [lower], tokenizing only drops
    characters. *)
Theorem tokenize_length_lowered (text : string) :
  String.length (join " " (_tokenize text)) <= String.length (lower text).
Proof.
  etransitivity; [apply (Splits_length _ _ (tokenize_Splits text))|].
  apply normalized_length_lower.
Qed.

(** X2: a full stop, comma or question mark of the lowercased text does
    not set words apart: when [text.lower()] is [a], the character and
    [b], the text tokenizes as [a] followed at once by [b], so the words
    on either side of the character run together. *)
Theorem tokenize_stripped_in_lowered (text a b : string) (c : ascii) :
  lower text = a ++ String c b ->
  stripped c = true ->
  _tokenize text = _tokenize (a ++ b).
Proof.
  intros El Hc. rewrite <- (tokenize_lower text), El.
  now apply tokenize_stripped_app.
Qed.

Lemma tokenize_stripped_in_lowered_witness :
  lower "End.Next" = "end" ++ String "." "next"
  /\ stripped "."%char = true
  /\ _tokenize "End.Next" = _tokenize ("end" ++ "next")
  /\ _tokenize "End.Next" = ["endnext"].
Proof.
  split; [reflexivity|]. split; [reflexivity|]. split; [|reflexivity].
  exact (tokenize_stripped_in_lowered "End.Next" "end" "next" "." eq_refl eq_refl).
Defined.

End TokenizerRoundTrip.

(** ** More on the query *)

Module QueryMore.
Import PyStr PyStrFacts TokenizerSpec TokenizerFacts TokenizerMore TokenizerRoundTrip ReaderFacts.

Lemma append_inv_tail (a b c : string) : a ++ c = b ++ c -> a = b.
Proof.
  intros E. apply chars_inj. apply (f_equal chars) in E.
  rewrite !chars_app in E. now apply app_inv_tail in E.
Qed.

Lemma append_inv_head (a b c : string) : a ++ b = a ++ c -> b = c.
Proof. induction a as [|x a IH]; cbn; intros E; [exact E | inversion E; auto]. Qed.

(** The part of a text in front of its first [c] is determined. *)
Lemma first_sep_unique (c : ascii) (t : string) : forall t' s s',
  ~ In c (chars t) -> ~ In c (chars t') ->
  t ++ String c s = t' ++ String c s' -> t = t' /\ s = s'.
Proof.
  induction t as [|a t IH]; intros t' s s' Ht Ht' E.
  - destruct t' as [|a' t']; cbn [String.append] in E.
    + now inversion E.
    + inversion E; subst. exfalso. apply Ht'. rewrite chars_String. now left.
  - destruct t' as [|a' t']; cbn [String.append] in E.
    + inversion E; subst. exfalso. apply Ht. rewrite chars_String. now left.
    + inversion E as [[Ea Et]]. subst a'.
      destruct (IH t' s s') as [-> ->]; auto.
      * intros Hin. apply Ht. rewrite chars_String. now right.
      * intros Hin. apply Ht'. rewrite chars_String. now right.
Qed.

Lemma join_cons_comma (x y : string) (l : list string) :
  join "," (x :: y :: l) = x ++ String comma (join "," (y :: l)).
Proof. reflexivity. Qed.

Lemma join_nonempty (x : string) (l : list string) :
  x <> EmptyString -> join "," (x :: l) <> EmptyString.
Proof.
  intros Hx. destruct l as [|y l]; [exact Hx|].
  rewrite join_cons_comma. destruct x; [congruence | discriminate].
Qed.

(** Joining with commas loses nothing when no piece has a comma. *)
Lemma join_comma_inj (l1 : list string) : forall l2,
  Forall piece l1 -> Forall piece l2 ->
  join "," l1 = join "," l2 -> l1 = l2.
Proof.
  induction l1 as [|x [|x' l1] IH]; intros l2 H1 H2 E.
  - destruct l2 as [|y l2]; [reflexivity|].
    inversion H2 as [|? ? [Hy _] _]; subst.
    symmetry in E. now apply join_nonempty in E.
  - inversion H1 as [|? ? [Hx Hxc] _]; subst.
    destruct l2 as [|y [|y' l2]].
    + now apply join_nonempty in E.
    + cbn [join String.concat] in E. now subst.
    + rewrite join_cons_comma in E. cbn [join String.concat] in E. subst x.
      exfalso. apply Hxc. rewrite chars_app, chars_String.
      apply in_or_app. right. now left.
  - inversion H1 as [|? ? [Hx Hxc] H1']; subst.
    destruct l2 as [|y [|y' l2]].
    + now apply join_nonempty in E.
    + inversion H2 as [|? ? [Hy Hyc] _]; subst.
      rewrite join_cons_comma in E. cbn [join String.concat] in E. subst y.
      exfalso. apply Hyc. rewrite chars_app, chars_String.
      apply in_or_app. right. now left.
    + inversion H2 as [|? ? [Hy Hyc] H2']; subst.
      rewrite !join_cons_comma in E.
      destruct (first_sep_unique comma _ _ _ _ Hxc Hyc E) as [-> E'].
      f_equal. now apply IH.
Qed.

Lemma quoted_inj (t1 t2 : string) : quoted t1 = quoted t2 -> t1 = t2.
Proof.
  unfold quoted. cbn [String.append]. intros E. inversion E as [E'].
  now apply append_inv_tail in E'.
Qed.

Lemma quoted_piece (t : string) : ~ In comma (chars t) -> piece (quoted t).
Proof.
  intros Ht. split; [discriminate|].
  unfold quoted. cbn [String.append]. rewrite chars_String, chars_app.
  intros [E|Hin]; [discriminate E|].
  apply in_app_or in Hin as [Hin|[E|[]]]; [auto | discriminate E].
Qed.

(** No token has a comma. *)
Lemma token_no_comma (text t : string) :
  In t (_tokenize text) -> ~ In comma (chars t).
Proof.
  intros Hin Hc.
  destruct (Splits_tokens _ _ (tokenize_Splits text) _ Hin) as [_ Hincl].
  apply Hincl, normalized_chars in Hc as [_ Hs]. discriminate Hs.
Qed.

Lemma map_quoted_inj (l1 : list string) : forall l2,
  map quoted l1 = map quoted l2 -> l1 = l2.
Proof.
  induction l1 as [|x l1 IH]; intros [|y l2] E; try discriminate E; [reflexivity|].
  cbn [map] in E.
  assert (quoted x = quoted y) as Ex by congruence.
  assert (map quoted l1 = map quoted l2) as El by congruence.
  apply quoted_inj in Ex. subst. f_equal. now apply IH.
Qed.

Lemma query_tokens (text1 text2 : string) :
  query text1 = query text2 -> _tokenize text1 = _tokenize text2.
Proof.
  unfold query, prolog_list_str. intros E.
  apply append_inv_head in E. apply append_inv_tail in E.
  apply append_inv_head in E. apply append_inv_tail in E.
  apply map_quoted_inj. apply join_comma_inj; [| |exact E];
    apply Forall_forall; intros q Hq; apply in_map_iff in Hq as (t & <- & Ht);
    apply quoted_piece; eapply token_no_comma; exact Ht.
Qed.

(** X7: two requests are sent to the engine as the same query exactly
    when they have the same tokens: the text of the query keeps the token
    list apart from every other one, apostrophes or not. *)
Theorem query_eq_iff (text1 text2 : string) :
  query text1 = query text2 <-> _tokenize text1 = _tokenize text2.
Proof.
  split; [apply query_tokens|]. unfold query. now intros ->.
Qed.

(** X17: the requests sent as the query of the empty list,
    [route([], Decision)], are exactly the texts made of whitespace and
    stripped characters only, the empty text among them. *)
Theorem query_of_nothing (text : string) :
  query text = "route([], Decision)"
  <-> Forall (fun c => isspace c = true \/ stripped c = true) (chars text).
Proof.
  rewrite <- tokenize_nil. change "route([], Decision)" with (query EmptyString).
  split; [apply query_tokens|]. unfold query. now intros ->.
Qed.

(** X8: when every token is made of printable ASCII characters other
    than the apostrophe and the backslash, the query reads, by Prolog's
    rule for quoted atoms, as the list of exactly the tokens. *)
Theorem query_reads_back (text : string) :
  Forall PrologSyntax.plain_token (_tokenize text) ->
  PrologSyntax.read_query (query text) = Some (_tokenize text).
Proof. apply read_query_plain. Qed.

Lemma query_reads_back_witness :
  Forall PrologSyntax.plain_token (_tokenize "Banana burger, sky blue?")
  /\ PrologSyntax.read_query (query "Banana burger, sky blue?")
     = Some ["banana"; "burger"; "sky"; "blue"].
Proof.
  assert (Forall PrologSyntax.plain_token (_tokenize "Banana burger, sky blue?")) as Hp
      by (vm_compute; repeat constructor).
  split; [exact Hp|].
  exact (query_reads_back "Banana burger, sky blue?" Hp).
Defined.

End QueryMore.

(** ** More on [route_request] *)

Section RouterMore.
Import TokenizerRoundTrip.
Context {engine obj : Type} {O : PyObject obj} {P : Prolog engine obj}.

(** X1: requests that differ only in the case of their letters are sent
    as the same query, so they get the same record, leave the same
    engine and print the same. *)
Theorem route_request_case_insensitive (text1 text2 : string) (w : world engine) :
  PyStr.lower text1 = PyStr.lower text2 ->
  query text1 = query text2
  /\ route_request text1 w = route_request text2 w.
Proof.
  intros E.
  assert (query text1 = query text2) as Hq.
  { unfold query. now rewrite <- (tokenize_lower text1), E, tokenize_lower. }
  split; [exact Hq|]. unfold route_request. now rewrite Hq.
Qed.

(** X9: a call queries the engine once, with the query of the request,
    and leaves the engine as that query left it.  It prints one line,
    "Routing Error: " and the text under [error], when the query raised
    or a conversion of the first solution raised, and nothing otherwise:
    the fallback for a query without solution is silent, and so is a
    classification. *)
Theorem route_request_effects (user_input : string) (w : world engine) :
  exists w' r,
    route_request user_input w = (w', Ok r)
    /\ prolog w' = fst (prolog_query (prolog w) (query user_input))
    /\ (stdout w' = stdout w
        \/ exists reason, r = _fallback_response reason
                          /\ stdout w' = (stdout w ++ [("Routing Error: " ++ reason)%string])%list)
    /\ (success_record r -> stdout w' = stdout w)
    /\ (snd (prolog_query (prolog w) (query user_input)) = Ok [] ->
        r = _fallback_response "No routing decision found" /\ stdout w' = stdout w)
    /\ (forall e, snd (prolog_query (prolog w) (query user_input)) = Raise e ->
        r = _fallback_response (exn_str e)
        /\ stdout w' = (stdout w ++ [("Routing Error: " ++ exn_str e)%string])%list)
    /\ (forall first rest e,
           snd (prolog_query (prolog w) (query user_input)) = Ok (first :: rest) ->
           bind (py_getitem first "Decision") decision_record = Raise e ->
           r = _fallback_response (exn_str e)
           /\ stdout w' = (stdout w ++ [("Routing Error: " ++ exn_str e)%string])%list)
    /\ (forall first rest r0,
           snd (prolog_query (prolog w) (query user_input)) = Ok (first :: rest) ->
           bind (py_getitem first "Decision") decision_record = Ok r0 ->
           r = r0 /\ stdout w' = stdout w).
Proof.
  assert (forall reason r, r = _fallback_response reason -> ~ success_record r) as Hfb.
  { intros reason r -> Hs. apply (success_not_fallback _ Hs). now eexists. }
  rewrite route_request_unfold, try_body_unfold.
  destruct (prolog_query (prolog w) (query user_input)) as [p [[|first rest]|e]];
    cbn [fst snd].
  - eexists _, _. split; [reflexivity|]. cbn [prolog stdout].
    split; [reflexivity|]. split; [now left|]. split; [reflexivity|].
    split; [now split|]. split; [discriminate|]. split; discriminate.
  - assert (bind (py_getitem first "Decision") (fun d => decision_record d)
            = bind (py_getitem first "Decision") decision_record) as Eb
        by (destruct (py_getitem first "Decision"); reflexivity).
    rewrite Eb.
    destruct (bind (py_getitem first "Decision") decision_record) as [r|e] eqn:E.
    + eexists _, _. split; [reflexivity|]. cbn [prolog stdout].
      split; [reflexivity|]. split; [now left|]. split; [reflexivity|].
      split; [discriminate|]. split; [discriminate|].
      split; intros first' rest' x El Ex; inversion El; subst; rewrite E in Ex;
        inversion Ex. now split.
    + eexists _, _. split; [reflexivity|]. unfold after_error. cbn [prolog stdout].
      split; [reflexivity|]. split; [right; eexists; split; reflexivity|].
      split; [intros Hs; now destruct (Hfb _ _ eq_refl Hs)|].
      split; [discriminate|]. split; [discriminate|].
      split; intros first' rest' x El Ex; inversion El; subst; rewrite E in Ex;
        inversion Ex. now split.
  - eexists _, _. split; [reflexivity|]. unfold after_error. cbn [prolog stdout].
    split; [reflexivity|]. split; [right; eexists; split; reflexivity|].
    split; [intros Hs; now destruct (Hfb _ _ eq_refl Hs)|].
    split; [discriminate|]. split; [intros e' E; inversion E; now split|].
    split; discriminate.
Qed.

(** X10: of the solutions of the query only the first is read: the record
    is made of it alone, and a conversion that fails on it gives the
    fallback, whatever solutions follow. *)
Theorem first_solution_only
        (user_input : string) (w : world engine) (p : engine)
        (first : obj) (rest : list obj) :
  prolog_query (prolog w) (query user_input) = (p, Ok (first :: rest)) ->
  route_request user_input w
  = match bind (py_getitem first "Decision") decision_record with
    | Ok r => (World p (stdout w), Ok r)
    | Raise e =>
        (World p (stdout w ++ ["Routing Error: " ++ exn_str e]),
         Ok (_fallback_response (exn_str e)))
    end.
Proof.
  intros E. rewrite route_request_unfold, try_body_unfold, E.
  cbn [bind Monad_res].
  destruct (py_getitem first "Decision") as [d|e]; [|reflexivity].
  destruct (decision_record d); reflexivity.
Qed.

End RouterMore.

Lemma route_request_case_insensitive_witness :
  PyStr.lower "Scan This PDF" = PyStr.lower "scan this pdf"
  /\ query "Scan This PDF" = query "scan this pdf"
  /\ route_request (obj := term) "Scan This PDF" listed_world
     = route_request (obj := term) "scan this pdf" listed_world.
Proof.
  split; [reflexivity|].
  exact (route_request_case_insensitive (obj := term)
           "Scan This PDF" "scan this pdf" listed_world eq_refl).
Defined.

Lemma first_solution_only_witness :
  prolog_query (Prolog := two_solutions) tt (query "Write a poem.")
  = (tt, Ok [two_solutions_first; Dict []])
  /\ snd (route_request (P := two_solutions) "Write a poem." (World tt []))
     = Ok [ ("domain", VStr "creative"); ("stakes", VStr "low");
            ("model", VStr "mythomax_13b"); ("validation_policy", VStr "none");
            ("tools_required", VList ["ocr"]); ("complexity_score", VInt 0) ].
Proof.
  split; [reflexivity|].
  rewrite (first_solution_only (P := two_solutions) "Write a poem." (World tt []) tt
             two_solutions_first [Dict []] eq_refl).
  reflexivity.
Defined.

Section MarshalMore.
Context {obj : Type} `{Pyswip obj}.

(** X11: a [Decision] dict that holds atoms under [domain], [stakes],
    [model] and [validation], a list of atoms under [tools] and an
    integer under [score] becomes the record with the same values under
    [domain], [stakes], [model], [validation_policy], [tools_required] and
    [complexity_score], whatever else the dict holds. *)
Theorem decision_record_of_dict
        (fields : list (string * obj))
        (domain stakes model validation : string) (tools : list string) (score : Z) :
  dict_get "domain" fields = Some (of_atom domain) ->
  dict_get "stakes" fields = Some (of_atom stakes) ->
  dict_get "model" fields = Some (of_atom model) ->
  dict_get "validation" fields = Some (of_atom validation) ->
  dict_get "tools" fields = Some (of_list (map of_atom tools)) ->
  dict_get "score" fields = Some (of_int score) ->
  decision_record (of_dict fields)
  = Ok [ ("domain", VStr domain); ("stakes", VStr stakes);
         ("model", VStr model); ("validation_policy", VStr validation);
         ("tools_required", VList tools); ("complexity_score", VInt score) ].
Proof.
  intros Hd Hs Hm Hv Ht Hz. unfold decision_record.
  rewrite (getitem_of_dict _ _ _ Hd), (getitem_of_dict _ _ _ Hs),
    (getitem_of_dict _ _ _ Hm), (getitem_of_dict _ _ _ Hv),
    (getitem_of_dict _ _ _ Ht), (getitem_of_dict _ _ _ Hz).
  cbn [bind Monad_res].
  rewrite !str_of_atom, iter_of_list, str_each_atoms, int_of_int.
  reflexivity.
Qed.

End MarshalMore.

Lemma decision_record_of_dict_witness :
  decision_record
    (Dict [ ("score", Int 3); ("note", Atom "kept out");
            ("domain", Atom "creative"); ("stakes", Atom "low");
            ("model", Atom "mythomax_13b"); ("validation", Atom "none");
            ("tools", TList [Atom "ocr"; Atom "vision"]) ])
  = Ok [ ("domain", VStr "creative"); ("stakes", VStr "low");
         ("model", VStr "mythomax_13b"); ("validation_policy", VStr "none");
         ("tools_required", VList ["ocr"; "vision"]); ("complexity_score", VInt 3) ].
Proof.
  exact (decision_record_of_dict (obj := term)
           [ ("score", Int 3); ("note", Atom "kept out");
             ("domain", Atom "creative"); ("stakes", Atom "low");
             ("model", Atom "mythomax_13b"); ("validation", Atom "none");
             ("tools", TList [Atom "ocr"; Atom "vision"]) ]
           "creative" "low" "mythomax_13b" "none" ["ocr"; "vision"] 3
           eq_refl eq_refl eq_refl eq_refl eq_refl eq_refl).
Defined.

(** ** The constructor *)

Module ConstructorFacts.
Import PyStr PyStrFacts.

(** Replacing a one-character string by a one-character string changes
    the characters one by one. *)
Lemma chars_replace_char_by_char (c d : ascii) (s : string) :
  chars (replace (String c EmptyString) (String d EmptyString) s)
  = map (fun x => if Ascii.eqb x c then d else x) (chars s).
Proof.
  unfold replace.
  induction s as [|x s IH]; [reflexivity|].
  cbn [replace_from prefix String.length Nat.sub].
  rewrite chars_String. cbn [map].
  destruct (ascii_dec c x) as [->|Hne].
  - rewrite Ascii.eqb_refl.
    replace (prefix EmptyString s) with true by (destruct s; reflexivity).
    cbn [String.append]. rewrite chars_String. now rewrite IH.
  - assert (Ascii.eqb x c = false) as ->
        by (apply Ascii.eqb_neq; congruence).
    rewrite chars_String. now rewrite IH.
Qed.

Lemma chars_clean_path (abs_path : string) :
  chars (clean_path abs_path)
  = map (fun x => if Ascii.eqb x backslash then slash else x) (chars abs_path).
Proof. apply chars_replace_char_by_char. Qed.

End ConstructorFacts.

Section ConstructorTheorems.
Import PyStr PyStrFacts ConstructorFacts TokenizerFacts TokenizerRoundTrip.

(** X12: the path handed to [consult] is the absolute path with every
    backslash turned into a slash and every other character as it was:
    it has no backslash and the same length, cleaning it again changes
    nothing, and a path without a backslash is left as it is. *)
Theorem clean_path_slashes (abs_path : string) :
  chars (clean_path abs_path)
  = map (fun x => if Ascii.eqb x backslash then slash else x) (chars abs_path)
  /\ ~ In backslash (chars (clean_path abs_path))
  /\ String.length (clean_path abs_path) = String.length abs_path
  /\ clean_path (clean_path abs_path) = clean_path abs_path
  /\ (~ In backslash (chars abs_path) -> clean_path abs_path = abs_path).
Proof.
  assert (forall p, ~ In backslash (chars p) -> clean_path p = p) as Hid.
  { intros p Hp. apply chars_inj. rewrite chars_clean_path.
    apply map_fixed. apply Forall_forall. intros x Hx.
    cbv beta. destruct (Ascii.eqb x backslash) eqn:Ex; [|reflexivity].
    apply Ascii.eqb_eq in Ex. subst x. contradiction. }
  assert (forall p, ~ In backslash (chars (clean_path p))) as Hno.
  { intros p. rewrite chars_clean_path. intros Hin.
    apply in_map_iff in Hin as (x & E & _).
    destruct (Ascii.eqb x backslash) eqn:Ex; [discriminate E|].
    apply Ascii.eqb_neq in Ex. congruence. }
  split; [apply chars_clean_path|]. split; [apply Hno|]. split; [|split].
  - rewrite !length_chars, chars_clean_path. apply length_map.
  - apply Hid, Hno.
  - apply Hid.
Qed.

Context {engine : Type} {L : Loader engine}.

(** X13: the constructor gives a service only when [consult] returned,
    on the cleaned absolute path, and then it has printed nothing; when
    it raises, either [abspath] raised and nothing was printed, or
    [consult] raised on the cleaned path, the same exception is raised
    again and one line, "Error loading Prolog rules: " and its text, was
    printed. *)
Theorem init_outcome (rules_file : string) (out : list string) :
  (forall out' p,
      __init__ rules_file out = (out', Ok p) ->
      out' = out
      /\ exists abs_path u,
           os_path_abspath rules_file = Ok abs_path
           /\ prolog_consult Prolog_new (clean_path abs_path) = (p, Ok u))
  /\ (forall out' e,
         __init__ rules_file out = (out', Raise e) ->
         (os_path_abspath rules_file = Raise e /\ out' = out)
         \/ exists abs_path p,
              os_path_abspath rules_file = Ok abs_path
              /\ prolog_consult Prolog_new (clean_path abs_path) = (p, Raise e)
              /\ out' = (out ++ [("Error loading Prolog rules: " ++ exn_str e)%string])%list).
Proof.
  unfold __init__, lift, consult, print_line.
  cbn [bind catch raise ret Monad_Py Exc_Py].
  destruct (os_path_abspath rules_file) as [abs_path|e0].
  - destruct (prolog_consult Prolog_new (clean_path abs_path)) as [p [u|e1]] eqn:E.
    + split; intros out' x Hx; inversion Hx; subst.
      split; [reflexivity|]. now exists abs_path, u.
    + split; intros out' x Hx; inversion Hx; subst.
      right. now exists abs_path, p.
  - split; intros out' x Hx; inversion Hx; subst. now left.
Qed.

End ConstructorTheorems.

Lemma init_outcome_witness :
  __init__ (L := no_file) "C:\rules\routing_rules.pl" []
  = (["Error loading Prolog rules: Caused by: 'consult('C:/rules/routing_rules.pl')'."],
     Raise (Exception "PrologError" "Caused by: 'consult('C:/rules/routing_rules.pl')'."))
  /\ exists abs_path p,
       os_path_abspath (Loader := no_file) "C:\rules\routing_rules.pl" = Ok abs_path
       /\ prolog_consult (Loader := no_file) (Prolog_new (Loader := no_file))
                         (clean_path abs_path)
          = (p, Raise (Exception "PrologError"
                         "Caused by: 'consult('C:/rules/routing_rules.pl')'.")).
Proof.
  assert (__init__ (L := no_file) "C:\rules\routing_rules.pl" []
          = (["Error loading Prolog rules: Caused by: 'consult('C:/rules/routing_rules.pl')'."],
             Raise (Exception "PrologError"
                      "Caused by: 'consult('C:/rules/routing_rules.pl')'."))) as Hi
      by reflexivity.
  split; [exact Hi|].
  destruct (proj2 (init_outcome (L := no_file) "C:\rules\routing_rules.pl" []) _ _ Hi)
    as [[Ha _]|(abs_path & p & Ha & Hc & _)].
  - discriminate Ha.
  - now exists abs_path, p.
Defined.

(** ** The test suite *)

Section TestFacts.
Context {engine obj : Type} {O : PyObject obj} {P : Prolog engine obj}.

Lemma no_answer_fallback (prompt : string) (router : world engine) :
  no_answer prompt router ->
  exists router' reason,
    route_request prompt router = (router', Ok (_fallback_response reason)).
Proof.
  intros (p & [E|[e E]]); rewrite route_request_unfold, try_body_unfold, E;
    eexists _, _; reflexivity.
Qed.

Lemma returned_readable (prompt : string) (router : world engine) :
  exists router' r,
    route_request prompt router = (router', Ok r) /\ test_readable r.
Proof.
  destruct (route_request_total prompt router) as (router' & r & E & Hr).
  exists router', r. split; [exact E|].
  destruct Hr as [[reason ->]|(d & s & m & v & t & sc & ->)];
    unfold test_readable; cbn; eauto 10.
Qed.

End TestFacts.

Section TestTheorems.
Context {engine obj : Type} {O : PyObject obj} {P : Prolog engine obj}.

Lemma assertEqual_judged (n : nat) (r : response) (key : string) (v w : value)
      (next : verdict) :
  dict_get key r = Some v -> judged next ->
  judged (assertEqual n (result_getitem r key) w next).
Proof.
  intros E Hn. unfold assertEqual, result_getitem. rewrite E.
  destruct (value_eqb v w); [exact Hn | right; now eexists].
Qed.

Lemma assertIn_judged (n : nat) (r : response) (key member : string)
      (l : list string) (next : verdict) :
  dict_get key r = Some (VList l) -> judged next ->
  judged (assertIn n member (result_getitem r key) next).
Proof.
  intros E Hn. unfold assertIn, result_getitem. rewrite E. cbn [py_in].
  destruct (existsb (String.eqb member) l); [exact Hn | right; now eexists].
Qed.

Lemma Passed_judged : judged Passed.
Proof. now left. Qed.

(** X16: whatever the engine answers, no test of the suite ends in an
    error: [route_request] returns a record in which every key a test
    reads is present and the tools are a list, so each test passes or
    fails at one of its assertions. *)
Theorem tests_never_error (router : world engine) :
  judged (snd (test_high_stakes_architecture router))
  /\ judged (snd (test_low_stakes_creative router))
  /\ judged (snd (test_implementation_optimization router))
  /\ judged (snd (test_tool_detection router))
  /\ judged (snd (test_unknown_fallback router)).
Proof.
  unfold test_high_stakes_architecture, test_low_stakes_creative,
    test_implementation_optimization, test_tool_detection, test_unknown_fallback,
    with_result.
  repeat split;
    match goal with
    | |- context [route_request ?prompt router] =>
        destruct (returned_readable prompt router)
          as (router' & r & -> & (d & s & m & v & t & Hd & Hs & Hm & Hv & Ht))
    end;
    cbn [snd];
    repeat (first [ eapply assertEqual_judged; [eassumption|]
                  | eapply assertIn_judged; [eassumption|] ]);
    apply Passed_judged.
Qed.

(** X14: [test_unknown_fallback] passes whenever the engine has no answer
    for its prompt, be it that the query raises or that it has no
    solution: the test does not tell a routing to the unknown domain
    from a failure of the engine. *)
Theorem unknown_test_passes_without_answer (router : world engine) :
  no_answer "Banana burger sky blue." router ->
  snd (test_unknown_fallback router) = Passed.
Proof.
  intros Hn. unfold test_unknown_fallback, with_result.
  destruct (no_answer_fallback _ _ Hn) as (router' & reason & ->).
  reflexivity.
Qed.

(** X15: each of the other four tests fails at its first assertion when
    the engine has no answer for its prompt. *)
Theorem other_tests_fail_without_answer (router : world engine) :
  (no_answer "Refactor the system architecture to use dependency injection." router ->
   snd (test_high_stakes_architecture router) = Failed 1)
  /\ (no_answer "Write a creative poem about the sun." router ->
      snd (test_low_stakes_creative router) = Failed 1)
  /\ (no_answer "Optimize this python function loop for better performance." router ->
      snd (test_implementation_optimization router) = Failed 1)
  /\ (no_answer "Scan this pdf image and find similar files." router ->
      snd (test_tool_detection router) = Failed 1).
Proof.
  unfold test_high_stakes_architecture, test_low_stakes_creative,
    test_implementation_optimization, test_tool_detection, with_result.
  repeat split; intros Hn;
    destruct (no_answer_fallback _ _ Hn) as (router' & reason & ->);
    reflexivity.
Qed.

End TestTheorems.

Lemma broken_no_answer (prompt : string) :
  no_answer (P := broken) (obj := term) prompt (World tt []).
Proof. exists tt. right. eexists. reflexivity. Defined.

Lemma unknown_test_passes_without_answer_witness :
  no_answer (P := broken) (obj := term) "Banana burger sky blue." (World tt [])
  /\ snd (test_unknown_fallback (P := broken) (World tt [])) = Passed.
Proof.
  split; [apply broken_no_answer|].
  exact (unknown_test_passes_without_answer (P := broken) (World tt [])
           (broken_no_answer _)).
Defined.

Lemma other_tests_fail_without_answer_witness :
  snd (test_high_stakes_architecture (P := broken) (World tt [])) = Failed 1
  /\ snd (test_low_stakes_creative (P := broken) (World tt [])) = Failed 1
  /\ snd (test_implementation_optimization (P := broken) (World tt [])) = Failed 1
  /\ snd (test_tool_detection (P := broken) (World tt [])) = Failed 1.
Proof.
  destruct (other_tests_fail_without_answer (P := broken) (World tt []))
    as (H1 & H2 & H3 & H4).
  split; [apply H1, broken_no_answer|].
  split; [apply H2, broken_no_answer|].
  split; [apply H3, broken_no_answer | apply H4, broken_no_answer].
Defined.

(** Over the listed rules the five tests pass, one after the other on the
    same service. *)
Example listed_suite_passes :
  let run (test : world Rules.engine -> world Rules.engine * verdict) st :=
      (fst (test (fst st)), (snd st ++ [snd (test (fst st))])%list) in
  snd (run (test_unknown_fallback (obj := term))
      (run (test_tool_detection (obj := term))
      (run (test_implementation_optimization (obj := term))
      (run (test_low_stakes_creative (obj := term))
      (run (test_high_stakes_architecture (obj := term)) (listed_world, []))))))
  = [Passed; Passed; Passed; Passed; Passed].
Proof. vm_compute. reflexivity. Qed.
